(** * Session data manager (session-data-manager.js): a shallow embedding

    The JavaScript class [SessionDataManager] keeps a per-session cache of
    per-company financial summaries in two relational tables and serves
    consolidated views over them.  This development embeds its methods as
    Rocq functions:

    - JavaScript numbers are IEEE-754 binary64 values, here the primitive
      [float] of Rocq, so that [+], [Math.abs], [<] and [===] are the very
      operations the program runs;
    - dynamically typed values ([cells[i].value], the numeric columns read
      back from the store) are an inductive [jsval] with JavaScript's
      truthiness, [||] and [parseFloat];
    - the asynchronous methods are computations in a state-and-exception
      monad over a [World] made of the clock, the two tables and the log of
      queries issued on the pool; rejected promises are [Throw];
    - the collaborators that are not part of the class (token storage, the
      accounting API, storage failures, column defaults of the schema) are
      the fields of an environment record [Env]. *)

From Stdlib Require Import ZArith String Ascii List Bool Lia DecimalString DecimalNat.
From Corelib Require Import PrimFloat FloatOps SpecFloat FloatAxioms.
From stdpp Require Import gmap strings.

Import ListNotations.
Local Open Scope Z_scope.
Set Warnings "-inexact-float".

(* ===================================================================== *)
(** ** JavaScript values and the builtins the class uses                  *)
(* ===================================================================== *)

Module JS.

Inductive jsval : Type :=
| JUndefined
| JNull
| JBool (b : bool)
| JNum (f : float)
| JStr (s : string).

(** ToBoolean: [undefined], [null], [false], [0], [-0], [NaN] and the
    empty string are falsy. *)
Definition truthy (v : jsval) : bool :=
  match v with
  | JUndefined | JNull => false
  | JBool b => b
  | JNum f => negb (is_zero f || is_nan f)
  | JStr s => negb (String.eqb s EmptyString)
  end.

(** [a || b] *)
Definition or_else (a b : jsval) : jsval := if truthy a then a else b.

(** [Math.abs], [x === y] on numbers, [x < y], [x + y], [x - y]. *)
Definition Math_abs (x : float) : float := PrimFloat.abs x.
Definition strict_eq (x y : float) : bool := PrimFloat.eqb x y.

(** *** Strings *)

Definition lower_ascii (c : ascii) : ascii :=
  let n := nat_of_ascii c in
  if (Nat.leb 65 n && Nat.leb n 90)%bool then ascii_of_nat (n + 32) else c.

(** [s.toLowerCase()], on the ASCII letters (the only ones that can
    produce the ASCII needles searched for below). *)
Fixpoint toLowerCase (s : string) : string :=
  match s with
  | EmptyString => EmptyString
  | String c r => String (lower_ascii c) (toLowerCase r)
  end.

Fixpoint startsWith (s needle : string) : bool :=
  match needle, s with
  | EmptyString, _ => true
  | String _ _, EmptyString => false
  | String a n', String b s' => (Ascii.eqb a b && startsWith s' n')%bool
  end.

(** [s.includes(needle)] *)
Fixpoint includes (s needle : string) : bool :=
  (startsWith s needle ||
   match s with
   | EmptyString => false
   | String _ r => includes r needle
   end)%bool.

(** *** parseFloat *)

Definition is_digit (c : ascii) : bool :=
  let n := nat_of_ascii c in (Nat.leb 48 n && Nat.leb n 57)%bool.

Definition digit_value (c : ascii) : Z := Z.of_nat (nat_of_ascii c) - 48.

Definition byte_is (c : ascii) (n : nat) : bool := Nat.eqb (nat_of_ascii c) n.

(** TrimString(start): white space and line terminators, with the
    non-ASCII ones in their UTF-8 encoding. *)
Fixpoint trimStart (s : string) : string :=
  match s with
  | String c r =>
      let n := nat_of_ascii c in
      if (Nat.eqb n 32 || (Nat.leb 9 n && Nat.leb n 13))%bool then trimStart r
      else
        match r with
        | String c2 r2 =>
            if (byte_is c 194 && byte_is c2 160)%bool then trimStart r2
            else
              match r2 with
              | String c3 r3 =>
                  let n3 := nat_of_ascii c3 in
                  if (   (byte_is c 225 && byte_is c2 154 && byte_is c3 128)
                      || (byte_is c 226 && byte_is c2 128 &&
                            ((Nat.leb 128 n3 && Nat.leb n3 138)
                             || Nat.eqb n3 168 || Nat.eqb n3 169 || Nat.eqb n3 175))
                      || (byte_is c 226 && byte_is c2 129 && byte_is c3 159)
                      || (byte_is c 227 && byte_is c2 128 && byte_is c3 128)
                      || (byte_is c 239 && byte_is c2 187 && byte_is c3 191))%bool
                  then trimStart r3
                  else s
              | EmptyString => s
              end
        | EmptyString => s
        end
  | EmptyString => s
  end.

(** Reads a run of decimal digits: the accumulated value, how many
    digits were read, and the rest of the string. *)
Fixpoint read_digits (s : string) (acc : Z) (count : Z) : Z * Z * string :=
  match s with
  | String c r =>
      if is_digit c then read_digits r (10 * acc + digit_value c) (count + 1)
      else (acc, count, s)
  | EmptyString => (acc, count, s)
  end.

(** ExponentPart, when one is present: [e] or [E], an optional sign and at
    least one digit; otherwise the exponent is 0. *)
Definition read_exponent (s : string) : Z :=
  match s with
  | String c r =>
      if (byte_is c 101 || byte_is c 69)%bool then
        let '(neg, r') :=
          match r with
          | String c2 r2 =>
              if byte_is c2 45 then (true, r2)
              else if byte_is c2 43 then (false, r2) else (false, r)
          | EmptyString => (false, r)
          end in
        let '(e, n, _) := read_digits r' 0 0 in
        if n =? 0 then 0 else if neg then - e else e
      else 0
  | EmptyString => 0
  end.

Definition signed_zero (neg : bool) : float := if neg then neg_zero else zero.
Definition signed_infinity (neg : bool) : float := if neg then neg_infinity else infinity.

(** The binary64 value nearest to [m * 10^e10] (ties to even), [m >= 0].
    Literals beyond [2^1100] or below [2^-1100] are decided without
    computing the power.  For a negative exponent the quotient is computed
    with at least 64 significant bits and a sticky bit for the remainder,
    which rounds as the exact value does. *)
Definition decimal_to_float (neg : bool) (m e10 : Z) : float :=
  if m =? 0 then signed_zero neg
  else
    let sgn (x : Z) := if neg then - x else x in
    if e10 >=? 0 then
      if Z.log2 m + 3 * e10 >? 1100 then signed_infinity neg
      else SF2Prim (binary_normalize prec emax (sgn (m * 10 ^ e10)) 0 neg)
    else if Z.log2 m + 3 * e10 <? -1100 then signed_zero neg
    else
      let d := 10 ^ (- e10) in
      let s := Z.max 0 (Z.log2 d - Z.log2 m + 64) in
      let q := (m * 2 ^ s) / d in
      let r := (m * 2 ^ s) mod d in
      let sticky := if r =? 0 then 0 else 1 in
      SF2Prim (binary_normalize prec emax (sgn (2 * q + sticky)) (- (s + 1)) neg).

(** [parseFloat(s)] for a string: the longest prefix of the trimmed string
    that is a StrDecimalLiteral, [NaN] when there is none. *)
Definition parseFloat_string (s : string) : float :=
  let t := trimStart s in
  let '(neg, u) :=
    match t with
    | String c r =>
        if byte_is c 45 then (true, r)
        else if byte_is c 43 then (false, r) else (false, t)
    | EmptyString => (false, t)
    end in
  if startsWith u "Infinity" then signed_infinity neg
  else
    let '(ip, ni, r1) := read_digits u 0 0 in
    let '(m, nf, r2) :=
      match r1 with
      | String c r =>
          if byte_is c 46 then
            let '(m', nf', r') := read_digits r ip 0 in
            if (ni =? 0) && (nf' =? 0) then (ip, 0, r1) else (m', nf', r')
          else (ip, 0, r1)
      | EmptyString => (ip, 0, r1)
      end in
    if (ni =? 0) && (nf =? 0) then nan
    else decimal_to_float neg m (read_exponent r2 - nf).

(** [parseFloat(v)]: the argument is first converted to a string; a
    number prints to a literal that reads back as itself, except that
    [-0] prints as ["0"]. *)
Definition parseFloat (v : jsval) : float :=
  match v with
  | JNum f => if is_zero f then zero else f
  | JStr s => parseFloat_string s
  | JUndefined | JNull | JBool _ => nan
  end.

(** *** [parseInt] *)

Definition hex_digit_value (c : ascii) : option Z :=
  let n := nat_of_ascii c in
  if (Nat.leb 48 n && Nat.leb n 57)%bool then Some (Z.of_nat n - 48)
  else if (Nat.leb 97 n && Nat.leb n 102)%bool then Some (Z.of_nat n - 87)
  else if (Nat.leb 65 n && Nat.leb n 70)%bool then Some (Z.of_nat n - 55)
  else None.

(** Reads a run of hexadecimal digits: the value and how many were read. *)
Fixpoint read_hex_digits (s : string) (acc : Z) (count : Z) : Z * Z :=
  match s with
  | String c r =>
      match hex_digit_value c with
      | Some v => read_hex_digits r (16 * acc + v) (count + 1)
      | None => (acc, count)
      end
  | EmptyString => (acc, count)
  end.

(** [parseInt(s)] with no radix: white space is trimmed, a sign is read, a
    prefix [0x] or [0X] selects radix 16, and the longest run of digits is
    the value; [None] is [NaN].  An integer Number is represented by the
    integer it holds (they coincide up to 2^53, far above any count of
    rows). *)
Definition parseInt (s : string) : option Z :=
  let t := trimStart s in
  let '(neg, u) :=
    match t with
    | String c r =>
        if byte_is c 45 then (true, r)
        else if byte_is c 43 then (false, r) else (false, t)
    | EmptyString => (false, t)
    end in
  let '(value, digits) :=
    match u with
    | String c1 (String c2 r) =>
        if (byte_is c1 48 && (byte_is c2 120 || byte_is c2 88))%bool
        then read_hex_digits r 0 0
        else let '(v, n, _) := read_digits u 0 0 in (v, n)
    | _ => let '(v, n, _) := read_digits u 0 0 in (v, n)
    end in
  if digits =? 0 then None else Some (if neg then - value else value).

End JS.

Import JS.


(* ===================================================================== *)
(** ** Promises that may reject                                           *)
(* ===================================================================== *)

(** The outcome of awaiting a promise: its value, or the [message] of the
    error it rejected with. *)
Inductive Result (A : Type) : Type :=
| Ok (a : A)
| Throw (message : string).
Arguments Ok {A} a.
Arguments Throw {A} message.

Definition is_ok {A} (r : Result A) : bool :=
  match r with Ok _ => true | Throw _ => false end.

(** [p.catch(() => null)] *)
Definition catch_null {A} (r : Result A) : option A :=
  match r with Ok a => Some a | Throw _ => None end.

(* ===================================================================== *)
(** ** Accounting reports and their reduction                             *)
(* ===================================================================== *)

Module Xero.

(** A report row: [rowType], an optional [title], the nested [rows] of a
    section, and the [cells] of a leaf row.  A cell is represented by
    what [cells[i]?.value] evaluates to. *)
#[warnings="-register-all"] Inductive ReportRow : Type :=
  mkReportRow {
    rowType : string;
    title : option string;
    rows : option (list ReportRow);
    cells : option (list jsval)
  }.

Record Report : Type := mkReport { report_rows : option (list ReportRow) }.
Record ResponseBody : Type := mkBody { reports : option (list Report) }.
Record Response : Type := mkResponse { body : option ResponseBody }.

(** [response.body.reports?.[0]?.rows || []]; reading [reports] of a
    missing body is a TypeError. *)
Definition report_rows_of (response : Response) : Result (list ReportRow) :=
  match body response with
  | None => Throw "Cannot read properties of undefined (reading 'reports')"
  | Some b =>
      Ok match reports b with
         | Some (r :: _) =>
             match report_rows r with Some rs => rs | None => [] end
         | Some [] | None => []
         end
  end.

(** [cells[i]?.value] *)
Definition cell_value (cs : list jsval) (i : nat) : jsval := nth i cs JUndefined.

End Xero.

Import Xero.

Record TrialBalanceTotals : Type := mkTrialBalanceTotals {
  totalAssets : float;
  totalLiabilities : float;
  totalEquity : float;
  isBalanced : bool
}.

(** The three [let] accumulators of [loadTrialBalanceTotals]. *)
Record BalanceAcc : Type := mkBalanceAcc {
  accAssets : float;
  accLiabilities : float;
  accEquity : float
}.

(** Body of the inner [section.rows.forEach((row) => ...)]. *)
Definition balance_row_step (sectionTitle : string) (acc : BalanceAcc) (row : ReportRow)
  : BalanceAcc :=
  match cells row with
  | Some cs =>
      if (String.eqb (rowType row) "Row" && Nat.leb 2 (length cs))%bool then
        let amount := parseFloat (or_else (cell_value cs 1) (JNum 0)) in
        if strict_eq amount 0 then acc
        else if includes sectionTitle "asset" then
          mkBalanceAcc (accAssets acc + amount) (accLiabilities acc) (accEquity acc)
        else if includes sectionTitle "liabilit" then
          mkBalanceAcc (accAssets acc) (accLiabilities acc + Math_abs amount) (accEquity acc)
        else if includes sectionTitle "equity" then
          mkBalanceAcc (accAssets acc) (accLiabilities acc) (accEquity acc + amount)
        else acc
      else acc
  | None => acc
  end.

(** Body of the outer [balanceSheetRows.forEach((section) => ...)]. *)
Definition balance_section_step (acc : BalanceAcc) (section : ReportRow) : BalanceAcc :=
  match rows section, title section with
  | Some rs, Some t =>
      if (String.eqb (rowType section) "Section" && negb (String.eqb t ""))%bool then
        fold_left (balance_row_step (toLowerCase t)) rs acc
      else acc
  | _, _ => acc
  end.

(** [loadTrialBalanceTotals] after the response has arrived. *)
Definition reduceTrialBalance (balanceSheetRows : list ReportRow) : TrialBalanceTotals :=
  let acc := fold_left balance_section_step balanceSheetRows (mkBalanceAcc 0 0 0) in
  let isBalanced :=
    (Math_abs (accAssets acc - (accLiabilities acc + accEquity acc)) <? 1)%float in
  mkTrialBalanceTotals (accAssets acc) (accLiabilities acc) (accEquity acc) isBalanced.

Record CashPosition : Type := mkCashPosition { totalCash : float }.

(** Body of the inner [row.rows.forEach((bankRow) => ...)];
    [accountName.toLowerCase()] is a TypeError when the label is truthy and
    not a string. *)
Definition cash_row_step (total : float) (bankRow : ReportRow) : Result float :=
  match cells bankRow with
  | Some cs =>
      if (String.eqb (rowType bankRow) "Row" && Nat.leb 5 (length cs))%bool then
        let accountName := or_else (cell_value cs 0) (JStr "") in
        if truthy accountName then
          match accountName with
          | JStr name =>
              if negb (includes (toLowerCase name) "total")
              then Ok (total + parseFloat (or_else (cell_value cs 4) (JNum 0)))%float
              else Ok total
          | _ => Throw "accountName.toLowerCase is not a function"
          end
        else Ok total
      else Ok total
  | None => Ok total
  end.

(** A [forEach] whose callback may throw: the first exception ends it. *)
Fixpoint forEach_acc {A B} (step : A -> B -> Result A) (l : list B) (acc : A) : Result A :=
  match l with
  | [] => Ok acc
  | x :: l' =>
      match step acc x with
      | Ok acc' => forEach_acc step l' acc'
      | Throw e => Throw e
      end
  end.

(** Body of the outer [bankSummaryRows.forEach((row) => ...)]. *)
Definition cash_section_step (total : float) (row : ReportRow) : Result float :=
  match rows row with
  | Some rs =>
      if String.eqb (rowType row) "Section" then forEach_acc cash_row_step rs total
      else Ok total
  | None => Ok total
  end.

(** [loadCashPosition] after the response has arrived. *)
Definition reduceCashPosition (bankSummaryRows : list ReportRow) : Result CashPosition :=
  match forEach_acc cash_section_step bankSummaryRows 0%float with
  | Ok total => Ok (mkCashPosition total)
  | Throw e => Throw e
  end.

(* ===================================================================== *)
(** ** The durable store                                                  *)
(* ===================================================================== *)

Module DB.

(** A row of [session_company_data].  The numeric columns hold what the
    driver hands back for them ([null], a number, or the decimal text of a
    NUMERIC column), which is why the reader goes through [|| 0] and
    [parseFloat]; boolean and text columns are nullable. *)
Record CompanyRow : Type := mkCompanyRow {
  session_id : string;
  tenant_id : string;
  tenant_name : string;
  total_assets : jsval;
  total_liabilities : jsval;
  total_equity : jsval;
  total_cash : jsval;
  total_revenue : jsval;
  total_expenses : jsval;
  net_profit : jsval;
  is_balanced : option bool;
  has_data : option bool;
  load_error : option string;
  expires_at : Z
}.

(** A row of [user_display_selection], unique per [session_id]. *)
Record SelectionRow : Type := mkSelectionRow {
  selected_tenant_ids : list string;
  current_view : string;
  last_updated : Z
}.

Record Tables : Type := mkTables {
  session_company_data : list CompanyRow;
  user_display_selection : gmap string SelectionRow
}.

(** The table definition of [session_company_data] is not part of the
    class: the values its columns take when an INSERT does not list them
    are a parameter of the store. *)
Record ColumnDefaults : Type := mkColumnDefaults {
  default_total_assets : jsval;
  default_total_liabilities : jsval;
  default_total_equity : jsval;
  default_total_cash : jsval;
  default_total_revenue : jsval;
  default_total_expenses : jsval;
  default_net_profit : jsval;
  default_is_balanced : option bool
}.

(** The row of [SELECT COUNT( * ) as count, MIN(expires_at) as earliest_expiry]:
    the count is a bigint, which the driver hands back as decimal text (hence
    the [parseInt] of the reader), and the minimum is null over no rows. *)
Record ValidityRow : Type := mkValidityRow {
  count : string;
  earliest_expiry : option Z
}.

(** The seven statements the class sends to [pool.query]. *)
Inductive Query : Type :=
| DeleteSessionRows (sessionId : string)
| InsertCompanyRow (row : CompanyRow)
| InsertErrorRow (sessionId tenantId tenantName : string) (hasData : bool)
                 (loadError : string) (expiresAt : Z)
| SelectLiveRows (sessionId : string) (tenantIds : list string)
| UpsertSelection (sessionId : string) (tenantIds : list string) (view : string)
| SelectSelection (sessionId : string)
| SelectValidity (sessionId : string).

Record ResultSet : Type := mkResultSet {
  company_rows : list CompanyRow;
  selection_rows : list SelectionRow;
  validity_rows : list ValidityRow
}.

Definition no_rows : ResultSet := mkResultSet [] [] [].

Definition in_session (sessionId : string) (r : CompanyRow) : bool :=
  String.eqb (session_id r) sessionId.

Definition any_of (tenantIds : list string) (t : string) : bool :=
  existsb (String.eqb t) tenantIds.

(** [WHERE session_id = $1 AND tenant_id = ANY($2) AND expires_at > NOW()] *)
Definition live_selected (now : Z) (sessionId : string) (tenantIds : list string)
           (r : CompanyRow) : bool :=
  (in_session sessionId r && any_of tenantIds (tenant_id r) && (now <? expires_at r))%bool.

Definition error_row (d : ColumnDefaults) (sessionId tenantId tenantName : string)
           (hasData : bool) (loadError : string) (expiresAt : Z) : CompanyRow :=
  {| session_id := sessionId;
     tenant_id := tenantId;
     tenant_name := tenantName;
     total_assets := default_total_assets d;
     total_liabilities := default_total_liabilities d;
     total_equity := default_total_equity d;
     total_cash := default_total_cash d;
     total_revenue := default_total_revenue d;
     total_expenses := default_total_expenses d;
     net_profit := default_net_profit d;
     is_balanced := default_is_balanced d;
     has_data := Some hasData;
     load_error := Some loadError;
     expires_at := expiresAt |}.

(** [WHERE session_id = $1 AND expires_at > NOW()] *)
Definition live_in_session (now : Z) (sessionId : string) (r : CompanyRow) : bool :=
  (in_session sessionId r && (now <? expires_at r))%bool.

(** [MIN] over a column: null when there is no row. *)
Definition minimum (l : list Z) : option Z :=
  match l with
  | [] => None
  | x :: l' => Some (fold_left Z.min l' x)
  end.

(** A bigint as the driver prints it. *)
Definition decimal_text (n : nat) : string := NilZero.string_of_uint (Nat.to_uint n).

Definition select_validity (now : Z) (sessionId : string) (t : Tables) : ValidityRow :=
  let live := List.filter (live_in_session now sessionId) (session_company_data t) in
  {| count := decimal_text (length live);
     earliest_expiry := minimum (map expires_at live) |}.

(** What a statement does to the tables and what it returns, at database
    time [now]. *)
Definition exec (d : ColumnDefaults) (now : Z) (q : Query) (t : Tables)
  : Tables * ResultSet :=
  match q with
  | DeleteSessionRows sid =>
      (mkTables (List.filter (fun r => negb (in_session sid r)) (session_company_data t))
                (user_display_selection t),
       no_rows)
  | InsertCompanyRow row =>
      (mkTables (session_company_data t ++ [row]) (user_display_selection t), no_rows)
  | InsertErrorRow sid tid name hd err exp =>
      (mkTables (session_company_data t ++ [error_row d sid tid name hd err exp])
                (user_display_selection t),
       no_rows)
  | SelectLiveRows sid tids =>
      (t, mkResultSet (List.filter (live_selected now sid tids) (session_company_data t)) [] [])
  | UpsertSelection sid tids view =>
      (mkTables (session_company_data t)
                (<[sid := mkSelectionRow tids view now]> (user_display_selection t)),
       no_rows)
  | SelectSelection sid =>
      (t, mkResultSet [] match user_display_selection t !! sid with
                         | Some r => [r]
                         | None => []
                         end [])
  | SelectValidity sid => (t, mkResultSet [] [] [select_validity now sid t])
  end.

(** The rows of one session, in table order. *)
Definition session_rows (sessionId : string) (t : Tables) : list CompanyRow :=
  List.filter (in_session sessionId) (session_company_data t).

End DB.

Import DB.

(* ===================================================================== *)
(** ** The world the methods run in                                       *)
(* ===================================================================== *)

Record TokenData : Type := mkTokenData { tenantName : string }.

(** The date argument of the balance sheet request: the date string passed
    by the caller, or the day ([toISOString().split("T")[0]]) of a clock
    reading. *)
Inductive ReportDate : Type :=
| DateString (date : string)
| DayOf (now : Z).

(** What the collaborators answer.  [getXeroToken] resolves to a token or to
    [null] or rejects; the report fetches reject or return a response;
    [query_fault n] is the error, if any, with which the storage engine
    rejects the [n]-th statement issued on the pool. *)
Record Env : Type := mkEnv {
  getXeroToken : string -> Result (option TokenData);
  setTokenSet : TokenData -> Result unit;
  getReportBalanceSheet : string -> ReportDate -> Result Response;
  getReportBankSummary : string -> Result Response;
  query_fault : nat -> option string;
  column_defaults : ColumnDefaults
}.

Inductive LogEntry : Type :=
| Executed (q : Query)
| Rejected (q : Query) (message : string).

Record World : Type := mkWorld {
  clock : Z;
  tables : Tables;
  log : list LogEntry
}.

(** Time passing between two calls. *)
Definition advance (dt : Z) (w : World) : World :=
  mkWorld (clock w + dt) (tables w) (log w).

(** An [async] method: it runs from a world, ends in a world, and resolves
    or rejects. *)
Definition M (A : Type) : Type := World -> Result A * World.

Definition ret {A} (a : A) : M A := fun w => (Ok a, w).
Definition throw {A} (message : string) : M A := fun w => (Throw message, w).

Definition bind {A B} (m : M A) (k : A -> M B) : M B :=
  fun w =>
    match m w with
    | (Ok a, w') => k a w'
    | (Throw e, w') => (Throw e, w')
    end.

(** [try { body } catch (error) { handler }] *)
Definition try_catch {A} (body : M A) (handler : string -> M A) : M A :=
  fun w =>
    match body w with
    | (Ok a, w') => (Ok a, w')
    | (Throw e, w') => handler e w'
    end.

(** [await] on a collaborator's promise. *)
Definition await {A} (r : Result A) : M A := fun w => (r, w).

(** [p.catch(() => null)] on a method of the class. *)
Definition catch_to_null {A} (m : M A) : M (option A) :=
  fun w => let '(r, w') := m w in (Ok (catch_null r), w').

Definition Date_now : M Z := fun w => (Ok (clock w), w).

Declare Scope js_scope.
Delimit Scope js_scope with js.
Notation "x <- m ;; k" := (bind m (fun x => k))
  (at level 100, m at next level, right associativity) : js_scope.
Notation "m ;;; k" := (bind m (fun _ => k))
  (at level 100, right associativity) : js_scope.

(** [Promise.all(ps)]: every promise of [ps] has been started before the
    join and runs to its end whatever the others do; the join resolves to
    all the values, in the order of [ps], or rejects with a rejection of one
    of them.  The event loop interleaves the promises, and a rejected join
    returns while the others are still in flight; here they are run one
    after the other in list order, and the world is the one reached when all
    of them have ended.  A loader acts on the shared world only through its
    one or two INSERT statements, so the difference is in the order of the
    inserted rows and of the log, and in the statement on which a fault of
    [query_fault] falls: the properties below are stated for every
    environment, and about the rows up to their order. *)
Fixpoint Promise_all {A} (ps : list (M A)) : M (list A) :=
  fun w =>
    match ps with
    | [] => (Ok [], w)
    | p :: ps' =>
        let '(r, w1) := p w in
        let '(rs, w2) := Promise_all ps' w1 in
        (match r, rs with
         | Throw e, _ => Throw e
         | Ok _, Throw e => Throw e
         | Ok a, Ok l => Ok (a :: l)
         end, w2)
    end.

(* ===================================================================== *)
(** ** class SessionDataManager                                           *)
(* ===================================================================== *)

Record LoadResult : Type := mkLoadResult {
  success : bool;
  tenantId : string;
  data : option CompanyRow;
  error : option string
}.

Record SessionSummary : Type := mkSessionSummary {
  sessionId : string;
  totalCompanies : nat;
  successfulCompanies : nat;
  expiresAt : Z
}.

(** What [getDisplaySelection] returns: the two selected columns. *)
Record Selection : Type := mkSelection {
  sel_tenant_ids : list string;
  sel_view : string
}.

Record Totals : Type := mkTotals {
  sumAssets : float;
  sumLiabilities : float;
  sumEquity : float;
  sumCash : float;
  sumRevenue : float;
  sumExpenses : float;
  sumNetProfit : float
}.

Record CompanyView : Type := mkCompanyView {
  cv_tenantId : string;
  cv_tenantName : string;
  cv_totalAssets : float;
  cv_totalLiabilities : float;
  cv_totalEquity : float;
  cv_totalCash : float;
  cv_isBalanced : option bool;
  cv_hasData : option bool;
  cv_error : option string
}.

Record Summary : Type := mkSummary {
  summaryTotalCompanies : nat;
  balancedCompanies : nat;
  companiesWithData : nat;
  companiesWithErrors : nat
}.

Record ConsolidatedView : Type := mkConsolidatedView {
  totals : Totals;
  companies : list CompanyView;
  summary : Summary
}.

(** [getConsolidatedData] returns either [{ error }] or the view. *)
Inductive Consolidated : Type :=
| ConsolidatedError (message : string)
| ConsolidatedOk (view : ConsolidatedView).

(** What [hasValidSessionData] returns.  Its [expiresAt] is the field
    [earliestExpiry] here, the name being taken by the summary of a load;
    [companiesCount] is [None] when [parseInt] gives [NaN]. *)
Record ValidSessionData : Type := mkValidSessionData {
  hasData : bool;
  companiesCount : option Z;
  earliestExpiry : option Z
}.

(** [this.sessionTTL = 30 * 60 * 1000] *)
Definition sessionTTL : Z := 30 * 60 * 1000.

(** A nullable boolean or text column as the JavaScript value read back. *)
Definition js_of_bool (o : option bool) : jsval :=
  match o with Some b => JBool b | None => JNull end.
Definition js_of_text (o : option string) : jsval :=
  match o with Some s => JStr s | None => JNull end.

(** [parseFloat(x || 0)] *)
Definition number_or_zero (x : jsval) : float := parseFloat (or_else x (JNum 0)).

(** [companies.reduce((sum, c) => sum + parseFloat(c.field || 0), 0)] *)
Definition reduce_sum (field : CompanyRow -> jsval) (cs : list CompanyRow) : float :=
  fold_left (fun sum c => (sum + number_or_zero (field c))%float) cs 0%float.

(** [companies.filter((c) => c.field).length] *)
Definition count_truthy (field : CompanyRow -> jsval) (cs : list CompanyRow) : nat :=
  length (List.filter (fun c => truthy (field c)) cs).

Definition company_view (c : CompanyRow) : CompanyView :=
  {| cv_tenantId := tenant_id c;
     cv_tenantName := tenant_name c;
     cv_totalAssets := number_or_zero (total_assets c);
     cv_totalLiabilities := number_or_zero (total_liabilities c);
     cv_totalEquity := number_or_zero (total_equity c);
     cv_totalCash := number_or_zero (total_cash c);
     cv_isBalanced := is_balanced c;
     cv_hasData := has_data c;
     cv_error := load_error c |}.

(** The object literal [consolidated] of [getConsolidatedData]. *)
Definition consolidate (cs : list CompanyRow) : ConsolidatedView :=
  {| totals :=
       {| sumAssets := reduce_sum total_assets cs;
          sumLiabilities := reduce_sum total_liabilities cs;
          sumEquity := reduce_sum total_equity cs;
          sumCash := reduce_sum total_cash cs;
          sumRevenue := reduce_sum total_revenue cs;
          sumExpenses := reduce_sum total_expenses cs;
          sumNetProfit := reduce_sum net_profit cs |};
     companies := map company_view cs;
     summary :=
       {| summaryTotalCompanies := length cs;
          balancedCompanies := count_truthy (fun c => js_of_bool (is_balanced c)) cs;
          companiesWithData := count_truthy (fun c => js_of_bool (has_data c)) cs;
          companiesWithErrors := count_truthy (fun c => js_of_text (load_error c)) cs |} |}.

(** [x || 0] on a field of an object that may be [null]:
    [trialBalanceData?.totalAssets || 0]. *)
Definition field_or_zero {A} (o : option A) (field : A -> float) : float :=
  match o with
  | Some a => if truthy (JNum (field a)) then field a else 0%float
  | None => 0%float
  end.

Section SessionDataManager.

Variable E : Env.

Local Open Scope js_scope.

(** [await this.pool.query(q)]: the statement is logged; it either takes
    effect and returns its rows, or is rejected without effect. *)
Definition pool_query (q : Query) : M ResultSet :=
  fun w =>
    match query_fault E (length (log w)) with
    | Some message =>
        (Throw message, mkWorld (clock w) (tables w) (log w ++ [Rejected q message]))
    | None =>
        let '(t', rs) := exec (column_defaults E) (clock w) q (tables w) in
        (Ok rs, mkWorld (clock w) t' (log w ++ [Executed q]))
    end.

(** [loadTrialBalanceTotals(tenantId, reportDate = null)] *)
Definition loadTrialBalanceTotals (tenantId : string) (reportDate : option string)
  : M TrialBalanceTotals :=
  now <- Date_now ;;
  let date :=
    match reportDate with
    | Some d => if String.eqb d "" then DayOf now else DateString d
    | None => DayOf now
    end in
  response <- await (getReportBalanceSheet E tenantId date) ;;
  balanceSheetRows <- await (report_rows_of response) ;;
  ret (reduceTrialBalance balanceSheetRows).

(** [loadCashPosition(tenantId)] *)
Definition loadCashPosition (tenantId : string) : M CashPosition :=
  response <- await (getReportBankSummary E tenantId) ;;
  bankSummaryRows <- await (report_rows_of response) ;;
  await (reduceCashPosition bankSummaryRows).

(** The object literal [companyData] of [loadSingleCompanyData]. *)
Definition companyData_of (sessionId tenantId : string) (tokenData : TokenData)
           (trialBalanceData : option TrialBalanceTotals) (cashData : option CashPosition)
           (expiresAt : Z) : CompanyRow :=
  {| session_id := sessionId;
     tenant_id := tenantId;
     tenant_name := tenantName tokenData;
     total_assets := JNum (field_or_zero trialBalanceData totalAssets);
     total_liabilities := JNum (Math_abs (field_or_zero trialBalanceData totalLiabilities));
     total_equity := JNum (field_or_zero trialBalanceData totalEquity);
     total_cash := JNum (field_or_zero cashData totalCash);
     total_revenue := JNum 0;
     total_expenses := JNum 0;
     net_profit := JNum 0;
     is_balanced :=
       Some match trialBalanceData with Some tb => isBalanced tb | None => false end;
     has_data :=
       Some match trialBalanceData, cashData with
            | None, None => false
            | _, _ => true
            end;
     load_error := None;
     expires_at := expiresAt |}.

(** [loadSingleCompanyData(sessionId, tenantId, expiresAt)] *)
Definition loadSingleCompanyData (sessionId tenantId : string) (expiresAt : Z)
  : M LoadResult :=
  try_catch
    (tokenData <- await (getXeroToken E tenantId) ;;
     match tokenData with
     | None => throw (String.append "No token found for tenant " tenantId)
     | Some tokenData =>
         await (setTokenSet E tokenData) ;;;
         trialBalanceData <- catch_to_null (loadTrialBalanceTotals tenantId None) ;;
         cashData <- catch_to_null (loadCashPosition tenantId) ;;
         let companyData :=
           companyData_of sessionId tenantId tokenData trialBalanceData cashData expiresAt in
         pool_query (InsertCompanyRow companyData) ;;;
         ret (mkLoadResult true tenantId (Some companyData) None)
     end)
    (fun error =>
       pool_query
         (InsertErrorRow sessionId tenantId "Unknown Company" false error expiresAt) ;;;
       ret (mkLoadResult false tenantId None (Some error))).

(** [setDisplaySelection(sessionId, selectedTenantIds, currentView = "overview")] *)
Definition setDisplaySelection (sessionId : string) (selectedTenantIds : list string)
           (currentView : option string) : M unit :=
  let currentView := match currentView with Some v => v | None => "overview"%string end in
  pool_query (UpsertSelection sessionId selectedTenantIds currentView) ;;;
  ret tt.

(** [getDisplaySelection(sessionId)] *)
Definition getDisplaySelection (sessionId : string) : M Selection :=
  result <- pool_query (SelectSelection sessionId) ;;
  ret match selection_rows result with
      | r :: _ => mkSelection (selected_tenant_ids r) (current_view r)
      | [] => mkSelection [] "overview"
      end.

(** [loadSessionData(sessionId, connectedTenantIds)] *)
Definition loadSessionData (sessionId : string) (connectedTenantIds : list string)
  : M SessionSummary :=
  now <- Date_now ;;
  let expiresAt := now + sessionTTL in
  pool_query (DeleteSessionRows sessionId) ;;;
  let loadPromises :=
    map (fun tenantId => loadSingleCompanyData sessionId tenantId expiresAt)
        connectedTenantIds in
  results <- Promise_all loadPromises ;;
  setDisplaySelection sessionId connectedTenantIds (Some "overview"%string) ;;;
  let successCount := length (List.filter success results) in
  ret {| sessionId := sessionId;
         totalCompanies := length connectedTenantIds;
         successfulCompanies := successCount;
         expiresAt := expiresAt |}.

(** [getConsolidatedData(sessionId, selectedTenantIds = null)] *)
Definition getConsolidatedData (sessionId : string) (selectedTenantIds : option (list string))
  : M Consolidated :=
  selectedTenantIds <-
    match selectedTenantIds with
    | Some ids => ret ids
    | None =>
        selection <- getDisplaySelection sessionId ;;
        ret (sel_tenant_ids selection)
    end ;;
  if Nat.eqb (length selectedTenantIds) 0 then
    ret (ConsolidatedError "No companies selected")
  else
    result <- pool_query (SelectLiveRows sessionId selectedTenantIds) ;;
    let companies := company_rows result in
    if Nat.eqb (length companies) 0 then
      ret (ConsolidatedError "No session data found or session expired")
    else
      ret (ConsolidatedOk (consolidate companies)).

(** [initialize()]: logs and returns [true]. *)
Definition initialize : M bool := ret true.

(** [hasValidSessionData(sessionId)]: one statement on the pool, and the
    first row of its result; reading [count] of a missing row is a
    TypeError.  [NaN > 0] is false. *)
Definition hasValidSessionData (sessionId : string) : M ValidSessionData :=
  result <- pool_query (SelectValidity sessionId) ;;
  match validity_rows result with
  | row :: _ =>
      ret {| hasData :=
               match parseInt (count row) with
               | Some n => 0 <? n
               | None => false
               end;
             companiesCount := parseInt (count row);
             earliestExpiry := earliest_expiry row |}
  | [] => throw "Cannot read properties of undefined (reading 'count')"
  end.

End SessionDataManager.

(* ===================================================================== *)
(** ** The properties the design document words, as definitions           *)
(* ===================================================================== *)

(** The arithmetic sum of a sequence of amounts, taken from left to right
    starting at 0. *)
Definition float_sum (l : list float) : float := fold_left PrimFloat.add l 0%float.

(** [needle] occurs in [s] up to the case of its letters. *)
Definition contains_ci (s needle : string) : Prop :=
  exists pre mid post,
    s = String.append pre (String.append mid post) /\ toLowerCase mid = needle.

(** *** Balance position *)

Inductive SectionKind : Type := Assets | Liabilities | Equity.

Definition SectionKind_eqb (a b : SectionKind) : bool :=
  match a, b with
  | Assets, Assets | Liabilities, Liabilities | Equity, Equity => true
  | _, _ => false
  end.

(** The total a section title selects; "asset" is looked for first, then
    "liabilit", then "equity". *)
Definition classify (sectionTitle : string) : option SectionKind :=
  let t := toLowerCase sectionTitle in
  if includes t "asset" then Some Assets
  else if includes t "liabilit" then Some Liabilities
  else if includes t "equity" then Some Equity
  else None.

(** A labeled section: a row of type "Section" with nested rows and a
    non-empty title. *)
Definition labeled_section (s : ReportRow) : option (string * list ReportRow) :=
  match rows s, title s with
  | Some rs, Some t =>
      if (String.eqb (rowType s) "Section" && negb (String.eqb t ""))%bool
      then Some (t, rs) else None
  | _, _ => None
  end.

(** The amount of a contained Row: the number in its second cell. *)
Definition row_amount (row : ReportRow) : option float :=
  match cells row with
  | Some cs =>
      if (String.eqb (rowType row) "Row" && Nat.leb 2 (length cs))%bool
      then Some (number_or_zero (cell_value cs 1)) else None
  | None => None
  end.

(** The amounts of the Rows of a section that are not exactly zero. *)
Definition nonzero_amounts (rs : list ReportRow) : list float :=
  flat_map (fun row =>
              match row_amount row with
              | Some a => if strict_eq a 0 then [] else [a]
              | None => []
              end) rs.

(** The amounts a report contributes to the total of kind [k], in report
    order. *)
Definition contributions (k : SectionKind) (report : list ReportRow) : list float :=
  flat_map (fun s =>
              match labeled_section s with
              | Some (t, rs) =>
                  match classify t with
                  | Some k' => if SectionKind_eqb k k' then nonzero_amounts rs else []
                  | None => []
                  end
              | None => []
              end) report.

(** The balance tolerance: a gap strictly below 1.0. *)
Definition within_tolerance (gap : float) : bool := (gap <? 1)%float.

(** *** Cash position *)

(** The rows nested in the rows of type "Section". *)
Definition section_children (report : list ReportRow) : list ReportRow :=
  flat_map (fun s =>
              match rows s with
              | Some rs => if String.eqb (rowType s) "Section" then rs else []
              | None => []
              end) report.

(** The cells of the leaf rows that have the amount column (the fifth). *)
Definition leaf_cells (rs : list ReportRow) : list (list jsval) :=
  flat_map (fun r =>
              match cells r with
              | Some cs =>
                  if (String.eqb (rowType r) "Row" && Nat.leb 5 (length cs))%bool
                  then [cs] else []
              | None => []
              end) rs.

Definition cash_leaves (report : list ReportRow) : list (list jsval) :=
  leaf_cells (section_children report).

Definition cash_label (cs : list jsval) : jsval := or_else (cell_value cs 0) (JStr "").
Definition cash_amount (cs : list jsval) : float := number_or_zero (cell_value cs 4).

(** The label is text, or is absent. *)
Definition label_is_text (cs : list jsval) : bool :=
  match cash_label cs with JStr _ => true | _ => false end.

(** The leaf counts: its label is not empty and does not contain "total". *)
Definition cash_counted (cs : list jsval) : bool :=
  match cash_label cs with
  | JStr name => (negb (String.eqb name "") && negb (includes (toLowerCase name) "total"))%bool
  | _ => false
  end.

(** The reading under which only the "total" rows are left out: every leaf
    Row of a section counts unless its label contains "total". *)
Definition all_leaves (report : list ReportRow) : list (list jsval) :=
  flat_map (fun r =>
              match cells r with
              | Some cs => if String.eqb (rowType r) "Row" then [cs] else []
              | None => []
              end) (section_children report).

Definition label_has_total (cs : list jsval) : bool :=
  match cell_value cs 0 with
  | JStr name => includes (toLowerCase name) "total"
  | _ => false
  end.

Definition totalCash_excluding_only_totals (report : list ReportRow) : float :=
  float_sum (map cash_amount (List.filter (fun cs => negb (label_has_total cs)) (all_leaves report))).

(** *** Consolidation *)

(** What a numeric column contributes: nothing when it is falsy ([null],
    [undefined], [0], [NaN], the empty text), itself when it is a number, and
    what [parseFloat] reads from it when it is text. *)
Definition field_amount (v : jsval) : float :=
  match v with
  | JNum f => if (is_zero f || is_nan f)%bool then 0%float else f
  | JStr s => if String.eqb s "" then 0%float else parseFloat_string s
  | JBool true => nan
  | JBool false | JNull | JUndefined => 0%float
  end.

(** The reading under which a field that is missing or is not a number
    counts as 0. *)
Definition numeric_or_zero (v : jsval) : float :=
  let f := parseFloat v in if is_nan f then 0%float else f.

Definition column_sum (amount : jsval -> float) (field : CompanyRow -> jsval)
           (cs : list CompanyRow) : float :=
  float_sum (map (fun c => amount (field c)) cs).

Definition count_where (p : CompanyRow -> bool) (cs : list CompanyRow) : nat :=
  length (List.filter p cs).

Definition flag_is_true (o : option bool) : bool :=
  match o with Some true => true | _ => false end.

Definition text_not_null (o : option string) : bool :=
  match o with Some _ => true | None => false end.

Definition text_not_empty (o : option string) : bool :=
  match o with Some s => negb (String.eqb s "") | None => false end.

(** *** Loading *)

(** The storage engine accepts every statement. *)
Definition reliable (E : Env) : Prop := forall n, query_fault E n = None.

(** The steps of [loadSingleCompanyData] before the fetches: the token is
    looked up, must exist, and is applied. *)
Definition credential_phase (E : Env) (tenantId : string) : Result TokenData :=
  match getXeroToken E tenantId with
  | Throw e => Throw e
  | Ok None => Throw (String.append "No token found for tenant " tenantId)
  | Ok (Some tokenData) =>
      match setTokenSet E tokenData with
      | Throw e => Throw e
      | Ok _ => Ok tokenData
      end
  end.

(** A row written by the success path, and one written by the catch
    block. *)
Definition is_success_row (r : CompanyRow) : Prop := load_error r = None.

Definition is_error_row (r : CompanyRow) : Prop :=
  tenant_name r = "Unknown Company"%string /\ has_data r = Some false /\
  exists message, load_error r = Some message.

(** The rows that the executed INSERT statements of a log added. *)
Definition inserted_rows (d : ColumnDefaults) (entries : list LogEntry) : list CompanyRow :=
  flat_map (fun entry =>
              match entry with
              | Executed (InsertCompanyRow row) => [row]
              | Executed (InsertErrorRow sid tid name hd err exp) =>
                  [error_row d sid tid name hd err exp]
              | _ => []
              end) entries.

(** The world after the insert attempts [entries] of a loader: the log has
    them, and the company table has the rows of those that were executed. *)
Definition after_inserts (d : ColumnDefaults) (entries : list LogEntry) (w : World) : World :=
  mkWorld (clock w)
          (mkTables (session_company_data (tables w) ++ inserted_rows d entries)
                    (user_display_selection (tables w)))
          (log w ++ entries).

(** The world after an executed DELETE of a session's rows, after an
    executed upsert of its selection, and after a rejected statement. *)
Definition after_delete (sessionId : string) (w : World) : World :=
  mkWorld (clock w)
          (mkTables (List.filter (fun r => negb (in_session sessionId r))
                                 (session_company_data (tables w)))
                    (user_display_selection (tables w)))
          (log w ++ [Executed (DeleteSessionRows sessionId)]).

Definition after_upsert (sessionId : string) (ids : list string) (view : string) (w : World)
  : World :=
  mkWorld (clock w)
          (mkTables (session_company_data (tables w))
                    (<[sessionId := mkSelectionRow ids view (clock w)]>
                       (user_display_selection (tables w))))
          (log w ++ [Executed (UpsertSelection sessionId ids view)]).

Definition after_rejected (q : Query) (e : string) (w : World) : World :=
  mkWorld (clock w) (tables w) (log w ++ [Rejected q e]).

(** What the two fetches of a loader leave after [.catch(() => null)]. *)
Definition fetched_balance (E : Env) (tenantId : string) (now : Z)
  : option TrialBalanceTotals :=
  match getReportBalanceSheet E tenantId (DayOf now) with
  | Ok response =>
      match report_rows_of response with
      | Ok balanceSheetRows => Some (reduceTrialBalance balanceSheetRows)
      | Throw _ => None
      end
  | Throw _ => None
  end.

Definition fetched_cash (E : Env) (tenantId : string) : option CashPosition :=
  match getReportBankSummary E tenantId with
  | Ok response =>
      match report_rows_of response with
      | Ok bankSummaryRows => catch_null (reduceCashPosition bankSummaryRows)
      | Throw _ => None
      end
  | Throw _ => None
  end.

(** The Company Loader case by case, for a call made at time [now] when [n]
    statements have been issued on the pool: what it returns and the insert
    attempts it makes.
    - credential phase passed, success row accepted: [{success: true}];
    - credential phase passed, success row rejected: the catch block writes
      the error row with the storage message;
    - credential phase failed: the catch block writes the error row with
      that message;
    - the loader rejects exactly when the error row itself is rejected. *)
Definition loader_trace (E : Env) (sessionId tenantId : string) (expiresAt now : Z) (n : nat)
  : Result LoadResult * list LogEntry :=
  let error_insert message :=
    InsertErrorRow sessionId tenantId "Unknown Company" false message expiresAt in
  let failed message (k : nat) (earlier : list LogEntry) :=
    match query_fault E k with
    | None => (Ok (mkLoadResult false tenantId None (Some message)),
               earlier ++ [Executed (error_insert message)])
    | Some e => (Throw e, earlier ++ [Rejected (error_insert message) e])
    end in
  match credential_phase E tenantId with
  | Ok tokenData =>
      let row :=
        companyData_of sessionId tenantId tokenData
                       (fetched_balance E tenantId now) (fetched_cash E tenantId) expiresAt in
      match query_fault E n with
      | None => (Ok (mkLoadResult true tenantId (Some row) None),
                 [Executed (InsertCompanyRow row)])
      | Some e => failed e (S n) [Rejected (InsertCompanyRow row) e]
      end
  | Throw message => failed message n []
  end.

(** What a loader that has run leaves: nothing when it rejected; otherwise
    one row, the success row when it returned [{success: true}] (its
    credential phase had passed) and the error row with the reported message
    when it returned [{success: false}]. *)
Definition loader_post (E : Env) (sessionId tenantId' : string) (expiresAt now : Z)
           (r : Result LoadResult) (written : list CompanyRow) : Prop :=
  match r with
  | Throw _ => written = []
  | Ok res =>
      tenantId res = tenantId' /\
      if success res then
        exists tokenData,
          credential_phase E tenantId' = Ok tokenData /\
          written = [companyData_of sessionId tenantId' tokenData
                                    (fetched_balance E tenantId' now)
                                    (fetched_cash E tenantId') expiresAt] /\
          data res = nth_error written 0 /\ error res = None
      else
        exists message,
          written = [error_row (column_defaults E) sessionId tenantId'
                               "Unknown Company" false message expiresAt] /\
          data res = None /\ error res = Some message
  end.

(** The rows a generation is made of: they belong to the session, expire
    together, and each is a success row or an error row. *)
Definition generation_row (sessionId : string) (expiresAt : Z) (row : CompanyRow) : Prop :=
  session_id row = sessionId /\ expires_at row = expiresAt /\
  (is_success_row row \/ is_error_row row).

(** The loader's statement that writes the error row was rejected. *)
Definition error_write_rejected (sessionId tenantId' : string) (expiresAt : Z)
           (entries : list LogEntry) : Prop :=
  exists message e,
    In (Rejected (InsertErrorRow sessionId tenantId' "Unknown Company" false message expiresAt) e)
       entries.


(** The join of two outcomes under [Promise.all]. *)
Definition join_results {A} (r : Result A) (rs : Result (list A)) : Result (list A) :=
  match r, rs with
  | Throw e, _ => Throw e
  | Ok _, Throw e => Throw e
  | Ok a, Ok l => Ok (a :: l)
  end.

(** The loaders of a session one after the other. *)
Fixpoint loaders_trace (E : Env) (sessionId : string) (expiresAt now : Z) (n : nat)
         (tenantIds : list string) : Result (list LoadResult) * list LogEntry :=
  match tenantIds with
  | [] => (Ok [], [])
  | tenantId :: rest =>
      let '(r, entries) := loader_trace E sessionId tenantId expiresAt now n in
      let '(rs, entries') :=
        loaders_trace E sessionId expiresAt now (n + length entries) rest in
      (join_results r rs, entries ++ entries')
  end.

(** A loader succeeds, when the store is reliable, exactly when its
    credential phase passes. *)
Definition credential_ok (E : Env) (tenantId : string) : bool :=
  is_ok (credential_phase E tenantId).

(** The stored selection of a session. *)
Definition stored_selection (sessionId : string) (w : World) : option SelectionRow :=
  user_display_selection (tables w) !! sessionId.

(** The selection [getConsolidatedData] works with: the one passed, or the
    stored one, or the empty one. *)
Definition resolved_selection (sessionId : string) (selected : option (list string))
           (w : World) : list string :=
  match selected with
  | Some ids => ids
  | None =>
      match stored_selection sessionId w with
      | Some r => selected_tenant_ids r
      | None => []
      end
  end.

(** The live rows of a session for a selection, at the time of the world. *)
Definition live_rows (sessionId : string) (ids : list string) (w : World) : list CompanyRow :=
  List.filter (live_selected (clock w) sessionId ids) (session_company_data (tables w)).


(** What the consolidator answers from the live rows of a selection that
    is not empty. *)
Definition consolidated_of (live : list CompanyRow) : Consolidated :=
  if Nat.eqb (length live) 0
  then ConsolidatedError "No session data found or session expired"
  else ConsolidatedOk (consolidate live).

(** The second half of [getConsolidatedData], issued as statement [k]: an
    empty selection is answered without reading the store. *)
Definition select_and_reduce (E : Env) (k : nat) (sessionId : string) (ids : list string)
           (w : World) : Result Consolidated :=
  if Nat.eqb (length ids) 0 then Ok (ConsolidatedError "No companies selected")
  else
    match query_fault E k with
    | Some e => Throw e
    | None => Ok (consolidated_of (live_rows sessionId ids w))
    end.

(* ===================================================================== *)
(** ** Concrete reports, rows and worlds                                  *)
(* ===================================================================== *)

Definition leaf (label amount : string) : ReportRow :=
  mkReportRow "Row" None None (Some [JStr label; JStr amount]).

Definition section (sectionTitle : string) (rs : list ReportRow) : ReportRow :=
  mkReportRow "Section" (Some sectionTitle) (Some rs) None.

(** A balance sheet whose assets exceed liabilities plus equity by the
    amount written in [gap]. *)
Definition balance_sheet_with_gap (gap : string) : list ReportRow :=
  [ section "Current Assets" [leaf "Bank" "100"; leaf "Surplus" gap];
    section "Current Liabilities" [leaf "Loan" "-60"];
    section "Equity" [leaf "Retained earnings" "40"] ].

(** A bank summary row: account, opening, received, spent, closing. *)
Definition bank_row (label closing : string) : ReportRow :=
  mkReportRow "Row" None None
              (Some [JStr label; JStr "0.00"; JStr "0.00"; JStr "0.00"; JStr closing]).

Definition bank_summary : list ReportRow :=
  [ mkReportRow "Section" None
                (Some [bank_row "Business Account" "1500.25";
                       bank_row "Savings" "200";
                       bank_row "Total" "1700.25"]) None ].

(** A bank summary with a leaf whose label is empty. *)
Definition bank_summary_unlabelled : list ReportRow :=
  [ mkReportRow "Section" None (Some [bank_row "" "100"]) None ].

(** A stored row whose assets column holds the NaN of a NUMERIC column and
    whose error message is the empty text. *)
Definition row_nan_assets : CompanyRow :=
  {| session_id := "s1"; tenant_id := "t1"; tenant_name := "Unknown Company";
     total_assets := JStr "NaN"; total_liabilities := JStr "0.00";
     total_equity := JStr "0.00"; total_cash := JStr "0.00";
     total_revenue := JStr "0.00"; total_expenses := JStr "0.00";
     net_profit := JStr "0.00";
     is_balanced := Some false; has_data := Some false; load_error := Some "";
     expires_at := 1800000 |}.

Definition row_plain (tenant : string) (assets liabilities equity cash : string) : CompanyRow :=
  {| session_id := "s1"; tenant_id := tenant; tenant_name := tenant;
     total_assets := JStr assets; total_liabilities := JStr liabilities;
     total_equity := JStr equity; total_cash := JStr cash;
     total_revenue := JNum 0; total_expenses := JNull; net_profit := JUndefined;
     is_balanced := Some true; has_data := Some true; load_error := None;
     expires_at := 1800000 |}.

(** Modelled from the spec: the table definition is not in the source;
    section 3 of the design document has the financial fields default to 0
    when unavailable ([is_balanced] is taken to default to false). *)
Definition zero_defaults : ColumnDefaults :=
  mkColumnDefaults (JNum 0) (JNum 0) (JNum 0) (JNum 0) (JNum 0) (JNum 0) (JNum 0) (Some false).

Definition response_of (report : list ReportRow) : Response :=
  mkResponse (Some (mkBody (Some [mkReport (Some report)]))).

Definition empty_world : World := mkWorld 0 (mkTables [] ∅) [].

(** Every company has a token, named after it, except company "c". *)
Definition tokens_without_c (tenantId' : string) : Result (option TokenData) :=
  if String.eqb tenantId' "c" then Ok None
  else Ok (Some (mkTokenData (String.append "Company " tenantId'))).

Definition all_tokens (tenantId' : string) : Result (option TokenData) :=
  Ok (Some (mkTokenData (String.append "Company " tenantId'))).

(** The collaborators all answer, the store accepts every statement, and
    company "c" has no token. *)
Definition env_missing_c : Env :=
  {| getXeroToken := tokens_without_c;
     setTokenSet := fun _ => Ok tt;
     getReportBalanceSheet := fun _ _ => Ok (response_of (balance_sheet_with_gap "0"));
     getReportBankSummary := fun _ => Ok (response_of bank_summary);
     query_fault := fun _ => None;
     column_defaults := zero_defaults |}.

(** Both report fetches are rejected by the accounting API. *)
Definition env_fetch_fails : Env :=
  {| getXeroToken := all_tokens;
     setTokenSet := fun _ => Ok tt;
     getReportBalanceSheet := fun _ _ => Throw "503 Service Unavailable";
     getReportBankSummary := fun _ => Throw "503 Service Unavailable";
     query_fault := fun _ => None;
     column_defaults := zero_defaults |}.

(** The store rejects the first statement issued and accepts the others. *)
Definition env_first_write_rejected : Env :=
  {| getXeroToken := all_tokens;
     setTokenSet := fun _ => Ok tt;
     getReportBalanceSheet := fun _ _ => Ok (response_of (balance_sheet_with_gap "0"));
     getReportBankSummary := fun _ => Ok (response_of bank_summary);
     query_fault := fun n => if Nat.eqb n 0 then Some "connection terminated"%string else None;
     column_defaults := zero_defaults |}.


(** The token is found, and applying it fails. *)
Definition env_apply_fails : Env :=
  {| getXeroToken := all_tokens;
     setTokenSet := fun _ => Throw "invalid_grant";
     getReportBalanceSheet := fun _ _ => Ok (response_of (balance_sheet_with_gap "0"));
     getReportBankSummary := fun _ => Ok (response_of bank_summary);
     query_fault := fun _ => None;
     column_defaults := zero_defaults |}.

(** A world in which session "s1" holds a stale row of company "a" and
    session "s2" a row of its own. *)
Definition stale_row (sessionId' tenantId' : string) : CompanyRow :=
  {| session_id := sessionId'; tenant_id := tenantId'; tenant_name := "Stale";
     total_assets := JStr "1.00"; total_liabilities := JStr "1.00";
     total_equity := JStr "0.00"; total_cash := JStr "0.00";
     total_revenue := JStr "0.00"; total_expenses := JStr "0.00";
     net_profit := JStr "0.00";
     is_balanced := Some true; has_data := Some true; load_error := None;
     expires_at := 5000000 |}.

Definition used_world : World :=
  mkWorld 1000
          (mkTables [stale_row "s1" "a"; stale_row "s2" "a"; stale_row "s1" "z"]
                    (<["s1"%string := mkSelectionRow ["a"; "z"]%string "detail" 500]> ∅))
          [Executed (SelectSelection "s1")].

(** A world at the same time, with as many statements issued, whose tables
    are empty. *)
Definition fresh_world : World :=
  mkWorld 1000 (mkTables [] ∅) [Executed (SelectSelection "s1")].

(** The same world once "s1" has been reloaded with companies a, b, c. *)
Definition reloaded_world : World :=
  snd (loadSessionData env_missing_c "s1" ["a"; "b"; "c"]%string used_world).

(** The selection of "s1" set once, and set again with the same arguments
    one second later. *)
Definition selection_set_once : World :=
  snd (setDisplaySelection env_missing_c "s1" ["a"]%string (Some "overview"%string) empty_world).

Definition selection_set_twice : World :=
  snd (setDisplaySelection env_missing_c "s1" ["a"]%string (Some "overview"%string)
                           (advance 1000 selection_set_once)).

(* ===================================================================== *)
(** ** Further definitions for the properties below                      *)
(* ===================================================================== *)

(** The unexpired rows of a session at the time of the world. *)
Definition live_session_rows (sessionId : string) (w : World) : list CompanyRow :=
  List.filter (fun r => clock w <? expires_at r) (session_rows sessionId (tables w)).

(** The store rejects the third statement issued and accepts the others. *)
Definition env_third_statement_rejected : Env :=
  {| getXeroToken := tokens_without_c;
     setTokenSet := fun _ => Ok tt;
     getReportBalanceSheet := fun _ _ => Ok (response_of (balance_sheet_with_gap "0"));
     getReportBankSummary := fun _ => Ok (response_of bank_summary);
     query_fault := fun n => if Nat.eqb n 2 then Some "deadlock detected"%string else None;
     column_defaults := zero_defaults |}.

(** A bank summary whose first account is labelled with a number. *)
Definition bank_summary_numbered : list ReportRow :=
  [ mkReportRow "Section" None
                (Some [mkReportRow "Row" None None
                                   (Some [JNum 1200; JStr "0.00"; JStr "0.00"; JStr "0.00";
                                          JStr "50.00"]);
                       bank_row "Savings" "200"]) None ].

Definition env_numbered_account : Env :=
  {| getXeroToken := all_tokens;
     setTokenSet := fun _ => Ok tt;
     getReportBalanceSheet := fun _ _ => Ok (response_of (balance_sheet_with_gap "0"));
     getReportBankSummary := fun _ => Ok (response_of bank_summary_numbered);
     query_fault := fun _ => None;
     column_defaults := zero_defaults |}.

(** The rows of a report that the two reductions look into: the top-level
    rows of type "Section", each with its nested rows of type "Row". *)
Definition has_rowType (t : string) (r : ReportRow) : bool := String.eqb (rowType r) t.

Definition visited_rows (report : list ReportRow) : list ReportRow :=
  map (fun s => mkReportRow (rowType s) (title s)
                            (option_map (List.filter (has_rowType "Row")) (rows s))
                            (cells s))
      (List.filter (has_rowType "Section") report).

(** A balance sheet as the accounting API lays it out: a header, sections
    closed by a summary row, and nested sections. *)
Definition balance_sheet_with_summaries : list ReportRow :=
  [ mkReportRow "Header" None None (Some [JStr ""; JStr "31 Mar"]);
    mkReportRow "Section" (Some "Assets")
                (Some [leaf "Bank" "100";
                       mkReportRow "SummaryRow" None None
                                   (Some [JStr "Total Assets"; JStr "100"])]) None;
    mkReportRow "Section" (Some "Liabilities")
                (Some [leaf "Loan" "60";
                       mkReportRow "Section" (Some "Assets")
                                   (Some [leaf "Nested" "999"]) None]) None;
    mkReportRow "Section" (Some "Equity") (Some [leaf "Retained earnings" "40"]) None;
    mkReportRow "Row" None None (Some [JStr "Net Assets"; JStr "40"]) ].

(** The statement of a log entry, and whether a statement writes to the
    tables on behalf of one session. *)
Definition statement_of (entry : LogEntry) : Query :=
  match entry with Executed q | Rejected q _ => q end.

Definition writes_for_session (sessionId : string) (q : Query) : bool :=
  match q with
  | DeleteSessionRows s => String.eqb s sessionId
  | InsertCompanyRow row => String.eqb (session_id row) sessionId
  | InsertErrorRow s _ _ _ _ _ => String.eqb s sessionId
  | UpsertSelection s _ _ => String.eqb s sessionId
  | SelectLiveRows _ _ | SelectSelection _ | SelectValidity _ => false
  end.

(** The row the loader of a company leaves when the store accepts its
    statement: the success row if the credential phase passed, the error
    row with its message otherwise. *)
Definition loaded_row (E : Env) (sessionId : string) (expiresAt now : Z) (tenantId' : string)
  : CompanyRow :=
  match credential_phase E tenantId' with
  | Ok tokenData =>
      companyData_of sessionId tenantId' tokenData
                     (fetched_balance E tenantId' now) (fetched_cash E tenantId') expiresAt
  | Throw message =>
      error_row (column_defaults E) sessionId tenantId' "Unknown Company" false message
                expiresAt
  end.

(* ===================================================================== *)
(** ** [parseFloat] on sample literals                                    *)
(* ===================================================================== *)

Example parseFloat_six_nines : parseFloat_string "0.999999" = 0.999999%float.
Proof. vm_compute. reflexivity. Qed.
Example parseFloat_amount : parseFloat_string "1234.56" = 1234.56%float.
Proof. vm_compute. reflexivity. Qed.
Example parseFloat_prefix : parseFloat_string "  -12.5e2abc" = (-1250)%float.
Proof. vm_compute. reflexivity. Qed.
Example parseFloat_letters : parseFloat_string "abc" = nan.
Proof. vm_compute. reflexivity. Qed.
Example parseFloat_overflow : parseFloat_string "1e400" = infinity.
Proof. vm_compute. reflexivity. Qed.
Example parseFloat_min_subnormal : parseFloat_string "4.9e-324" = 4.9e-324%float.
Proof. vm_compute. reflexivity. Qed.
Example parseFloat_max_double : parseFloat_string "1.7976931348623157e308" = 1.7976931348623157e308%float.
Proof. vm_compute. reflexivity. Qed.
Example parseFloat_tenth : parseFloat_string "0.1" = 0.1%float.
Proof. vm_compute. reflexivity. Qed.
Example parseFloat_leading_dot : parseFloat_string ".5" = 0.5%float.
Proof. vm_compute. reflexivity. Qed.
Example parseFloat_trailing_dot : parseFloat_string "5." = 5%float.
Proof. vm_compute. reflexivity. Qed.
Example parseFloat_lone_dot : parseFloat_string "." = nan.
Proof. vm_compute. reflexivity. Qed.
Example parseFloat_dangling_exponent : parseFloat_string "1e" = 1%float.
Proof. vm_compute. reflexivity. Qed.
Example parseFloat_negative_infinity : parseFloat_string "-Infinityx" = neg_infinity.
Proof. vm_compute. reflexivity. Qed.
Example parseFloat_min_normal : parseFloat_string "2.2250738585072011e-308" = 2.2250738585072011e-308%float.
Proof. vm_compute. reflexivity. Qed.
Example parseFloat_ties_to_even : parseFloat_string "9007199254740993" = 9007199254740992%float.
Proof. vm_compute. reflexivity. Qed.
Example parseFloat_underflow : parseFloat_string "1e-400" = 0%float.
Proof. vm_compute. reflexivity. Qed.
Example parseFloat_negative_zero : parseFloat_string "-0" = neg_zero.
Proof. vm_compute. reflexivity. Qed.
Example parseFloat_NaN_text : parseFloat_string "NaN" = nan.
Proof. vm_compute. reflexivity. Qed.
(* ===================================================================== *)
(** ** Strings: [includes] and [toLowerCase]                              *)
(* ===================================================================== *)

Lemma startsWith_spec (s needle : string) :
  startsWith s needle = true <-> exists post, s = String.append needle post.
Proof.
  revert s; induction needle as [|a n IH]; intros s; simpl.
  - split; [intros _; exists s; reflexivity | intros _; destruct s; reflexivity].
  - destruct s as [|b s]; simpl.
    + split; [discriminate | intros [post H]; discriminate].
    + rewrite andb_true_iff, Ascii.eqb_eq, IH. split.
      * intros [-> [post ->]]. exists post; reflexivity.
      * intros [post H]. injection H as -> ->. split; [reflexivity | eauto].
Qed.

Lemma includes_unfold (s needle : string) :
  includes s needle =
  (startsWith s needle ||
   match s with EmptyString => false | String _ r => includes r needle end)%bool.
Proof. destruct s; reflexivity. Qed.

Lemma includes_spec (s needle : string) :
  includes s needle = true <->
  exists pre post, s = String.append pre (String.append needle post).
Proof.
  induction s as [|c s IH]; rewrite includes_unfold.
  - rewrite orb_false_r, startsWith_spec. split.
    + intros [post H]. exists EmptyString, post. exact H.
    + intros (pre & post & H). destruct pre; simpl in H; [eauto | discriminate].
  - rewrite orb_true_iff, startsWith_spec, IH. split.
    + intros [[post H] | (pre & post & H)].
      * exists EmptyString, post. exact H.
      * exists (String c pre), post. rewrite H. reflexivity.
    + intros (pre & post & H). destruct pre as [|c' pre]; simpl in H.
      * left; eauto.
      * right. injection H as -> H. eauto.
Qed.

Lemma toLowerCase_append (a b : string) :
  toLowerCase (String.append a b) = String.append (toLowerCase a) (toLowerCase b).
Proof. induction a as [|c a IH]; simpl; [reflexivity | now rewrite IH]. Qed.

Lemma toLowerCase_split (s a b : string) :
  toLowerCase s = String.append a b ->
  exists a' b', s = String.append a' b' /\ toLowerCase a' = a /\ toLowerCase b' = b.
Proof.
  revert s; induction a as [|c a IH]; intros s H; simpl in H.
  - exists EmptyString, s. auto.
  - destruct s as [|d s]; simpl in H; [discriminate |].
    injection H as Hc H. destruct (IH _ H) as (a' & b' & -> & Ha & Hb).
    exists (String d a'), b'. simpl. now rewrite Hc, Ha.
Qed.

(** [title.toLowerCase().includes(needle)] is the case-insensitive
    substring test. *)
Lemma includes_toLowerCase (s needle : string) :
  includes (toLowerCase s) needle = true <-> contains_ci s needle.
Proof.
  rewrite includes_spec. unfold contains_ci. split.
  - intros (pre & post & H).
    apply toLowerCase_split in H as (pre' & rest & -> & Hpre & H).
    apply toLowerCase_split in H as (mid & post' & -> & Hmid & Hpost).
    exists pre', mid, post'. auto.
  - intros (pre & mid & post & -> & Hmid).
    exists (toLowerCase pre), (toLowerCase post).
    now rewrite !toLowerCase_append, Hmid.
Qed.

(* ===================================================================== *)
(** ** Sums of amounts                                                    *)
(* ===================================================================== *)

Lemma fold_left_add_map {A} (f : A -> float) (l : list A) (acc : float) :
  fold_left (fun sum x => (sum + f x)%float) l acc = fold_left PrimFloat.add (map f l) acc.
Proof. revert acc; induction l as [|x l IH]; intros acc; simpl; [reflexivity | apply IH]. Qed.

Lemma number_or_zero_field_amount (v : jsval) : number_or_zero v = field_amount v.
Proof.
  unfold number_or_zero, or_else.
  destruct v as [| |[|]|f|s]; simpl; try reflexivity.
  - destruct (is_zero f) eqn:Hz; simpl; [reflexivity |].
    destruct (is_nan f); simpl; [reflexivity |]. now rewrite Hz.
  - destruct (String.eqb s "") eqn:Hs; simpl; reflexivity.
Qed.

(* ===================================================================== *)
(** ** Balance position                                                   *)
(* ===================================================================== *)

Lemma nonzero_amounts_cons (row : ReportRow) (rs : list ReportRow) :
  nonzero_amounts (row :: rs) =
  match row_amount row with
  | Some a => if strict_eq a 0 then [] else [a]
  | None => []
  end ++ nonzero_amounts rs.
Proof. reflexivity. Qed.

Lemma balance_rows_fold (t : string) (rs : list ReportRow) (acc : BalanceAcc) :
  fold_left (balance_row_step (toLowerCase t)) rs acc =
  match classify t with
  | Some Assets =>
      mkBalanceAcc (fold_left PrimFloat.add (nonzero_amounts rs) (accAssets acc))
                   (accLiabilities acc) (accEquity acc)
  | Some Liabilities =>
      mkBalanceAcc (accAssets acc)
                   (fold_left PrimFloat.add (map Math_abs (nonzero_amounts rs))
                              (accLiabilities acc))
                   (accEquity acc)
  | Some Equity =>
      mkBalanceAcc (accAssets acc) (accLiabilities acc)
                   (fold_left PrimFloat.add (nonzero_amounts rs) (accEquity acc))
  | None => acc
  end.
Proof.
  unfold classify.
  destruct (includes (toLowerCase t) "asset") eqn:Ha;
    [| destruct (includes (toLowerCase t) "liabilit") eqn:Hl;
       [| destruct (includes (toLowerCase t) "equity") eqn:He]].
  all: revert acc; induction rs as [|row rs IH]; intros acc;
    [destruct acc; reflexivity |].
  all: cbn [fold_left]; rewrite IH; rewrite ?nonzero_amounts_cons;
    unfold balance_row_step, row_amount, number_or_zero; rewrite ?Ha, ?Hl, ?He;
    destruct (cells row) as [cs|]; [| reflexivity];
    destruct (String.eqb (rowType row) "Row" && Nat.leb 2 (length cs))%bool;
    [| reflexivity];
    destruct (strict_eq (parseFloat (or_else (cell_value cs 1) (JNum 0))) 0);
    reflexivity.
Qed.

Lemma contributions_cons (k : SectionKind) (s : ReportRow) (report : list ReportRow) :
  contributions k (s :: report) =
  match labeled_section s with
  | Some (t, rs) =>
      match classify t with
      | Some k' => if SectionKind_eqb k k' then nonzero_amounts rs else []
      | None => []
      end
  | None => []
  end ++ contributions k report.
Proof. reflexivity. Qed.

Lemma balance_sections_fold (report : list ReportRow) (acc : BalanceAcc) :
  fold_left balance_section_step report acc =
  mkBalanceAcc
    (fold_left PrimFloat.add (contributions Assets report) (accAssets acc))
    (fold_left PrimFloat.add (map Math_abs (contributions Liabilities report))
               (accLiabilities acc))
    (fold_left PrimFloat.add (contributions Equity report) (accEquity acc)).
Proof.
  revert acc; induction report as [|s report IH]; intros acc.
  - destruct acc; reflexivity.
  - cbn [fold_left]. rewrite IH. clear IH.
    rewrite !contributions_cons.
    unfold balance_section_step, labeled_section.
    destruct (rows s) as [rs|]; [| reflexivity].
    destruct (title s) as [t|]; [| reflexivity].
    destruct (String.eqb (rowType s) "Section" && negb (String.eqb t ""))%bool;
      [| reflexivity].
    rewrite balance_rows_fold.
    destruct (classify t) as [[| |]|];
      cbn [SectionKind_eqb accAssets accLiabilities accEquity app map];
      rewrite ?map_app, ?fold_left_app; reflexivity.
Qed.

Lemma contributions_nonzero (k : SectionKind) (report : list ReportRow) :
  Forall (fun a => strict_eq a 0 = false) (contributions k report).
Proof.
  induction report as [|s report IH]; [constructor |].
  rewrite contributions_cons. apply Forall_app. split; [| exact IH].
  destruct (labeled_section s) as [[t rs]|]; [| constructor].
  destruct (classify t) as [k'|]; [| constructor].
  destruct (SectionKind_eqb k k'); [| constructor].
  clear. induction rs as [|row rs IH]; [constructor |].
  rewrite nonzero_amounts_cons. apply Forall_app. split; [| exact IH].
  destruct (row_amount row) as [a|]; [| constructor].
  destruct (strict_eq a 0) eqn:Ha; repeat constructor. exact Ha.
Qed.

Lemma classify_spec (t : string) :
  (classify t = Some Assets <-> contains_ci t "asset") /\
  (classify t = Some Liabilities <->
     ~ contains_ci t "asset" /\ contains_ci t "liabilit") /\
  (classify t = Some Equity <->
     ~ contains_ci t "asset" /\ ~ contains_ci t "liabilit" /\ contains_ci t "equity").
Proof.
  rewrite <- !includes_toLowerCase. unfold classify.
  destruct (includes (toLowerCase t) "asset");
    destruct (includes (toLowerCase t) "liabilit");
    destruct (includes (toLowerCase t) "equity");
    intuition congruence.
Qed.

(** C6: the balance-position reduction sums, per total, the non-zero amounts
    of the Rows of the labeled sections whose title contains "asset",
    "liabilit" or "equity" up to case (liabilities by absolute value), and
    [isBalanced] is the strict test [|assets - (liabilities + equity)| < 1]:
    a gap of exactly 1.0 is not balanced, a gap of 0.999999 is. *)
Theorem loadTrialBalanceTotals_reduction (report : list ReportRow) :
  let r := reduceTrialBalance report in
  totalAssets r = float_sum (contributions Assets report) /\
  totalLiabilities r = float_sum (map Math_abs (contributions Liabilities report)) /\
  totalEquity r = float_sum (contributions Equity report) /\
  (forall k, Forall (fun a => strict_eq a 0 = false) (contributions k report)) /\
  isBalanced r =
    within_tolerance (Math_abs (totalAssets r - (totalLiabilities r + totalEquity r))) /\
  within_tolerance 1 = false /\
  within_tolerance 0.999999 = true /\
  (forall t,
      (classify t = Some Assets <-> contains_ci t "asset") /\
      (classify t = Some Liabilities <->
         ~ contains_ci t "asset" /\ contains_ci t "liabilit") /\
      (classify t = Some Equity <->
         ~ contains_ci t "asset" /\ ~ contains_ci t "liabilit" /\ contains_ci t "equity")) /\
  isBalanced (reduceTrialBalance (balance_sheet_with_gap "1.0")) = false /\
  isBalanced (reduceTrialBalance (balance_sheet_with_gap "0.999999")) = true.
Proof.
  cbv zeta. unfold reduceTrialBalance at 1 2 3 4 5 6 7. rewrite balance_sections_fold.
  cbn [totalAssets totalLiabilities totalEquity isBalanced accAssets accLiabilities accEquity].
  split; [reflexivity |]. split; [reflexivity |]. split; [reflexivity |].
  split; [intros k; apply contributions_nonzero |].
  split; [reflexivity |]. split; [reflexivity |]. split; [reflexivity |].
  split; [apply classify_spec |].
  split; vm_compute; reflexivity.
Qed.

(* ===================================================================== *)
(** ** Cash position                                                      *)
(* ===================================================================== *)

Lemma leaf_cells_cons (r : ReportRow) (rs : list ReportRow) :
  leaf_cells (r :: rs) =
  match cells r with
  | Some cs =>
      if (String.eqb (rowType r) "Row" && Nat.leb 5 (length cs))%bool then [cs] else []
  | None => []
  end ++ leaf_cells rs.
Proof. reflexivity. Qed.

Lemma leaf_cells_app (a b : list ReportRow) :
  leaf_cells (a ++ b) = leaf_cells a ++ leaf_cells b.
Proof. unfold leaf_cells. apply flat_map_app. Qed.

(** The inner loop adds the amounts of the counted leaves, in order. *)
Lemma cash_rows_fold (rs : list ReportRow) (total : float) :
  Forall (fun cs => label_is_text cs = true) (leaf_cells rs) ->
  forEach_acc cash_row_step rs total =
  Ok (fold_left PrimFloat.add
                (map cash_amount (List.filter cash_counted (leaf_cells rs))) total).
Proof.
  revert total; induction rs as [|r rs IH]; intros total Htext; [reflexivity |].
  rewrite leaf_cells_cons in *. apply Forall_app in Htext as [Hr Hrs].
  cbn [forEach_acc]. unfold cash_row_step.
  destruct (cells r) as [cs|]; [| now rewrite IH].
  destruct (String.eqb (rowType r) "Row" && Nat.leb 5 (length cs))%bool; [| now rewrite IH].
  apply Forall_inv in Hr. unfold label_is_text in Hr.
  cbn [app List.filter]. unfold cash_counted at 1.
  fold (cash_label cs). destruct (cash_label cs) as [| |b|f|name] eqn:Hlabel; try discriminate.
  assert (Htruthy : truthy (JStr name) = negb (String.eqb name "")) by reflexivity.
  rewrite Htruthy. destruct (String.eqb name ""); cbn [negb andb]; [now rewrite IH |].
  destruct (includes (toLowerCase name) "total"); cbn [negb]; [now rewrite IH |].
  rewrite IH by exact Hrs. reflexivity.
Qed.

Lemma section_children_cons (s : ReportRow) (report : list ReportRow) :
  section_children (s :: report) =
  match rows s with
  | Some rs => if String.eqb (rowType s) "Section" then rs else []
  | None => []
  end ++ section_children report.
Proof. reflexivity. Qed.

Lemma cash_sections_fold (report : list ReportRow) (total : float) :
  Forall (fun cs => label_is_text cs = true) (cash_leaves report) ->
  forEach_acc cash_section_step report total =
  Ok (fold_left PrimFloat.add
                (map cash_amount (List.filter cash_counted (cash_leaves report))) total).
Proof.
  unfold cash_leaves.
  revert total; induction report as [|s report IH]; intros total Htext; [reflexivity |].
  rewrite section_children_cons, leaf_cells_app in *.
  apply Forall_app in Htext as [Hs Hrest].
  cbn [forEach_acc]. unfold cash_section_step.
  rewrite List.filter_app, map_app, fold_left_app.
  destruct (rows s) as [rs|]; [| now rewrite IH].
  destruct (String.eqb (rowType s) "Section"); [| now rewrite IH].
  rewrite cash_rows_fold by exact Hs. now rewrite IH.
Qed.

(** C8, as the code has it: the cash total is the sum of the fifth cell over
    the leaf Rows (at least five cells) nested in Section rows whose label is
    a non-empty text that does not contain "total" up to case; rows with an
    empty or absent label are left out as well. *)
Theorem loadCashPosition_reduction (report : list ReportRow) :
  Forall (fun cs => label_is_text cs = true) (cash_leaves report) ->
  reduceCashPosition report =
  Ok (mkCashPosition
        (float_sum (map cash_amount (List.filter cash_counted (cash_leaves report))))).
Proof.
  intros Htext. unfold reduceCashPosition. now rewrite cash_sections_fold.
Qed.

Lemma loadCashPosition_reduction_witness :
  Forall (fun cs => label_is_text cs = true) (cash_leaves bank_summary) /\
  reduceCashPosition bank_summary = Ok (mkCashPosition 1700.25).
Proof.
  assert (H : Forall (fun cs => label_is_text cs = true) (cash_leaves bank_summary))
    by (repeat constructor).
  split; [exact H |].
  rewrite (loadCashPosition_reduction bank_summary H). vm_compute. reflexivity.
Defined.

(** C8, as worded: a leaf Row whose label is empty does not contain "total",
    yet its amount is not part of the total. *)
Lemma loadCashPosition_counterexample :
  Forall (fun cs => label_has_total cs = false) (all_leaves bank_summary_unlabelled) /\
  reduceCashPosition bank_summary_unlabelled = Ok (mkCashPosition 0) /\
  totalCash_excluding_only_totals bank_summary_unlabelled = 100%float /\
  reduceCashPosition bank_summary_unlabelled <>
  Ok (mkCashPosition (totalCash_excluding_only_totals bank_summary_unlabelled)).
Proof.
  split; [repeat constructor |].
  split; [vm_compute; reflexivity |].
  split; [vm_compute; reflexivity |].
  intros H.
  apply (f_equal (fun r => match r with
                           | Ok c => PrimFloat.eqb (totalCash c) 0
                           | Throw _ => false
                           end)) in H.
  vm_compute in H. discriminate.
Qed.

(* ===================================================================== *)
(** ** Consolidation                                                      *)
(* ===================================================================== *)

Lemma reduce_sum_column_sum (field : CompanyRow -> jsval) (cs : list CompanyRow) :
  reduce_sum field cs = column_sum field_amount field cs.
Proof.
  unfold reduce_sum, column_sum, float_sum. rewrite fold_left_add_map.
  f_equal. apply map_ext. intros c. apply number_or_zero_field_amount.
Qed.

Lemma count_truthy_bool (flag : CompanyRow -> option bool) (cs : list CompanyRow) :
  count_truthy (fun c => js_of_bool (flag c)) cs =
  count_where (fun c => flag_is_true (flag c)) cs.
Proof.
  unfold count_truthy, count_where. f_equal. apply List.filter_ext.
  intros c. destruct (flag c) as [[|]|]; reflexivity.
Qed.

Lemma count_truthy_text (text : CompanyRow -> option string) (cs : list CompanyRow) :
  count_truthy (fun c => js_of_text (text c)) cs =
  count_where (fun c => text_not_empty (text c)) cs.
Proof.
  unfold count_truthy, count_where. f_equal. apply List.filter_ext.
  intros c. destruct (text c) as [s|]; reflexivity.
Qed.

(** C5, as the code has it: each total is the left-to-right sum of the
    field over the rows, a falsy field (null, undefined, 0, NaN, empty text)
    counting as 0, a number as itself and a text as [parseFloat] reads it;
    the per-company list projects every row in order; the counts are the
    rows, those with [is_balanced] true, those with [has_data] true, and
    those whose [load_error] is neither null nor empty. *)
Theorem getConsolidatedData_reduction (cs : list CompanyRow) :
  totals (consolidate cs) =
    {| sumAssets := column_sum field_amount total_assets cs;
       sumLiabilities := column_sum field_amount total_liabilities cs;
       sumEquity := column_sum field_amount total_equity cs;
       sumCash := column_sum field_amount total_cash cs;
       sumRevenue := column_sum field_amount total_revenue cs;
       sumExpenses := column_sum field_amount total_expenses cs;
       sumNetProfit := column_sum field_amount net_profit cs |} /\
  companies (consolidate cs) =
    map (fun c =>
           {| cv_tenantId := tenant_id c;
              cv_tenantName := tenant_name c;
              cv_totalAssets := field_amount (total_assets c);
              cv_totalLiabilities := field_amount (total_liabilities c);
              cv_totalEquity := field_amount (total_equity c);
              cv_totalCash := field_amount (total_cash c);
              cv_isBalanced := is_balanced c;
              cv_hasData := has_data c;
              cv_error := load_error c |}) cs /\
  summary (consolidate cs) =
    {| summaryTotalCompanies := length cs;
       balancedCompanies := count_where (fun c => flag_is_true (is_balanced c)) cs;
       companiesWithData := count_where (fun c => flag_is_true (has_data c)) cs;
       companiesWithErrors := count_where (fun c => text_not_empty (load_error c)) cs |}.
Proof.
  unfold consolidate. cbn [totals companies summary].
  rewrite !reduce_sum_column_sum, !count_truthy_bool, count_truthy_text.
  split; [reflexivity |]. split; [| reflexivity].
  apply map_ext. intros c. unfold company_view.
  now rewrite !number_or_zero_field_amount.
Qed.

(** C5, as worded: a row whose assets column holds the text "NaN" makes the
    assets total NaN instead of counting as 0, and a row whose [load_error]
    is the empty text is not counted among the rows with an error although
    its [load_error] is not null. *)
Lemma getConsolidatedData_counterexample :
  sumAssets (totals (consolidate [row_nan_assets])) <>
    column_sum numeric_or_zero total_assets [row_nan_assets] /\
  companiesWithErrors (summary (consolidate [row_nan_assets])) <>
    count_where (fun c => text_not_null (load_error c)) [row_nan_assets].
Proof.
  split; intros H.
  - apply (f_equal is_nan) in H. vm_compute in H. discriminate.
  - vm_compute in H. discriminate.
Qed.

(* ===================================================================== *)
(** ** The Company Loader                                                 *)
(* ===================================================================== *)

Lemma loadTrialBalanceTotals_fetched (E : Env) (tid : string) (w : World) :
  catch_to_null (loadTrialBalanceTotals E tid None) w =
  (Ok (fetched_balance E tid (clock w)), w).
Proof.
  unfold catch_to_null, loadTrialBalanceTotals, fetched_balance, bind, await, ret, Date_now.
  destruct (getReportBalanceSheet E tid (DayOf (clock w))) as [response|e]; [| reflexivity].
  destruct (report_rows_of response); reflexivity.
Qed.

Lemma loadCashPosition_fetched (E : Env) (tid : string) (w : World) :
  catch_to_null (loadCashPosition E tid) w = (Ok (fetched_cash E tid), w).
Proof.
  unfold catch_to_null, loadCashPosition, fetched_cash, bind, await, ret.
  destruct (getReportBankSummary E tid) as [response|e]; [| reflexivity].
  destruct (report_rows_of response) as [rs|e]; [| reflexivity].
  destruct (reduceCashPosition rs); reflexivity.
Qed.

(** The loader is its case table, and what it leaves in the world is the
    record of its insert attempts. *)
Lemma loadSingleCompanyData_run (E : Env) (sid tid : string) (exp : Z) (w : World) :
  loadSingleCompanyData E sid tid exp w =
  (fst (loader_trace E sid tid exp (clock w) (length (log w))),
   after_inserts (column_defaults E)
                 (snd (loader_trace E sid tid exp (clock w) (length (log w)))) w).
Proof.
  unfold loadSingleCompanyData, loader_trace, try_catch, bind, credential_phase.
  unfold await at 1.
  destruct (getXeroToken E tid) as [[tok|]|e0].
  - unfold await at 1. destruct (setTokenSet E tok) as [[]|e0].
    + rewrite loadTrialBalanceTotals_fetched, loadCashPosition_fetched.
      destruct w as [now [scd uds] lg].
      unfold pool_query, ret, after_inserts; cbn [clock tables log].
      destruct (query_fault E (length lg)) as [e1|] eqn:H1.
      * cbn [clock tables log]. rewrite length_app, Nat.add_1_r.
        destruct (query_fault E (S (length lg))) as [e2|] eqn:H2;
          cbn; rewrite <- ?app_assoc, ?app_nil_r; reflexivity.
      * cbn; reflexivity.
    + destruct w as [now [scd uds] lg].
      unfold pool_query, ret, after_inserts; cbn [clock tables log].
      destruct (query_fault E (length lg)) as [e1|];
        cbn; rewrite ?app_nil_r; reflexivity.
  - destruct w as [now [scd uds] lg].
    unfold throw, pool_query, ret, after_inserts; cbn [clock tables log].
    destruct (query_fault E (length lg)) as [e1|];
      cbn; rewrite ?app_nil_r; reflexivity.
  - destruct w as [now [scd uds] lg].
    unfold pool_query, ret, after_inserts; cbn [clock tables log].
    destruct (query_fault E (length lg)) as [e1|];
      cbn; rewrite ?app_nil_r; reflexivity.
Qed.

(** The two report methods return the reduction of the rows of the first
    report of the response, and leave the world as it is. *)
Lemma loadTrialBalanceTotals_returns (E : Env) (tid : string) (w : World)
      (response : Response) (report : list ReportRow) :
  getReportBalanceSheet E tid (DayOf (clock w)) = Ok response ->
  report_rows_of response = Ok report ->
  loadTrialBalanceTotals E tid None w = (Ok (reduceTrialBalance report), w).
Proof.
  intros Hfetch Hrows.
  unfold loadTrialBalanceTotals, bind, await, ret, Date_now. now rewrite Hfetch, Hrows.
Qed.

Lemma loadCashPosition_returns (E : Env) (tid : string) (w : World)
      (response : Response) (report : list ReportRow) :
  getReportBankSummary E tid = Ok response ->
  report_rows_of response = Ok report ->
  loadCashPosition E tid w = (reduceCashPosition report, w).
Proof.
  intros Hfetch Hrows.
  unfold loadCashPosition, bind, await. now rewrite Hfetch, Hrows.
Qed.

Lemma loader_trace_post (E : Env) (sid tid : string) (exp now : Z) (n : nat) :
  loader_post E sid tid exp now
              (fst (loader_trace E sid tid exp now n))
              (inserted_rows (column_defaults E) (snd (loader_trace E sid tid exp now n))).
Proof.
  unfold loader_trace, loader_post.
  destruct (credential_phase E tid) as [tok|msg] eqn:Hc.
  - destruct (query_fault E n) as [e1|].
    + destruct (query_fault E (S n)) as [e2|]; cbn; [reflexivity |].
      split; [reflexivity |]. exists e1. auto.
    + cbn. split; [reflexivity |]. exists tok. auto.
  - destruct (query_fault E n) as [e2|]; cbn; [reflexivity |].
    split; [reflexivity |]. exists msg. auto.
Qed.

Lemma loader_trace_rejects (E : Env) (sid tid : string) (exp now : Z) (n : nat) :
  (exists e, fst (loader_trace E sid tid exp now n) = Throw e) <->
  error_write_rejected sid tid exp (snd (loader_trace E sid tid exp now n)).
Proof.
  unfold loader_trace, error_write_rejected.
  destruct (credential_phase E tid) as [tok|msg].
  - destruct (query_fault E n) as [e1|].
    + destruct (query_fault E (S n)) as [e2|]; cbn; split.
      * intros _. exists e1, e2. auto.
      * intros _. eauto.
      * intros [e H]. discriminate.
      * intros (m & e & [H | [H | []]]); discriminate.
    + cbn; split.
      * intros [e H]. discriminate.
      * intros (m & e & [H | []]); discriminate.
  - destruct (query_fault E n) as [e2|]; cbn; split.
    + intros _. exists msg, e2. auto.
    + intros _. eauto.
    + intros [e H]. discriminate.
    + intros (m & e & [H | []]); discriminate.
Qed.

(** C3, as the code has it: the loader is its case table.  It rejects
    exactly when the write of the error row is rejected.  A failed
    credential phase (no token, a failing lookup or application of the token)
    and a rejected write of the success row are caught and become one error
    row ("Unknown Company", [has_data = false], [load_error] the message,
    the other columns defaulted) with [{success: false, error}]; a failed
    fetch or reduction is not a failure of the loader, its result counts as
    null in a success row with [{success: true}]. *)
Theorem loadSingleCompanyData_failures (E : Env) (sid tid : string) (exp : Z) (w : World) :
  let trace := loader_trace E sid tid exp (clock w) (length (log w)) in
  loadSingleCompanyData E sid tid exp w =
    (fst trace, after_inserts (column_defaults E) (snd trace) w) /\
  ((exists e, fst trace = Throw e) <-> error_write_rejected sid tid exp (snd trace)) /\
  loader_post E sid tid exp (clock w) (fst trace)
              (inserted_rows (column_defaults E) (snd trace)).
Proof.
  cbv zeta. split; [apply loadSingleCompanyData_run |].
  split; [apply loader_trace_rejects | apply loader_trace_post].
Qed.

(** C3, as worded: with both fetches rejected the loader returns
    [{success: true}] and writes a row without [load_error], not an error
    row; and with the write of the success row rejected it does not reject,
    it returns [{success: false}]. *)
Lemma loadSingleCompanyData_counterexample :
  (getReportBalanceSheet env_fetch_fails "a" (DayOf 0) = Throw "503 Service Unavailable" /\
   getReportBankSummary env_fetch_fails "a" = Throw "503 Service Unavailable" /\
   (exists row,
       loadSingleCompanyData env_fetch_fails "s1" "a" 1800000 empty_world =
         (Ok (mkLoadResult true "a" (Some row) None),
          mkWorld 0 (mkTables [row] ∅) [Executed (InsertCompanyRow row)]) /\
       load_error row = None /\ has_data row = Some false) /\
   ~ (exists message w',
         loadSingleCompanyData env_fetch_fails "s1" "a" 1800000 empty_world =
           (Ok (mkLoadResult false "a" None (Some message)), w'))) /\
  (query_fault env_first_write_rejected 0 = Some "connection terminated"%string /\
   fst (loadSingleCompanyData env_first_write_rejected "s1" "a" 1800000 empty_world) =
     Ok (mkLoadResult false "a" None (Some "connection terminated"%string))).
Proof.
  split; [| split; reflexivity].
  split; [reflexivity |]. split; [reflexivity |]. split.
  - eexists. split; [vm_compute; reflexivity |]. split; reflexivity.
  - intros (message & w' & H).
    apply (f_equal (fun p => match fst p with Ok res => success res | Throw _ => false end)) in H.
    vm_compute in H. discriminate.
Qed.

(* ===================================================================== *)
(** ** The fan-out and the Session Loader                                 *)
(* ===================================================================== *)

Lemma inserted_rows_app (d : ColumnDefaults) (es es' : list LogEntry) :
  inserted_rows d (es ++ es') = inserted_rows d es ++ inserted_rows d es'.
Proof. unfold inserted_rows. apply flat_map_app. Qed.

Lemma after_inserts_nil (d : ColumnDefaults) (w : World) : after_inserts d [] w = w.
Proof.
  destruct w as [now [scd uds] lg]. unfold after_inserts. cbn. now rewrite !app_nil_r.
Qed.

Lemma after_inserts_app (d : ColumnDefaults) (es es' : list LogEntry) (w : World) :
  after_inserts d (es ++ es') w = after_inserts d es' (after_inserts d es w).
Proof.
  unfold after_inserts. cbn. now rewrite inserted_rows_app, !app_assoc.
Qed.

(** The join of the loaders is the join of their case tables. *)
Lemma Promise_all_loaders (E : Env) (sid : string) (exp : Z) (ids : list string) (w : World) :
  Promise_all (map (fun tid => loadSingleCompanyData E sid tid exp) ids) w =
  (fst (loaders_trace E sid exp (clock w) (length (log w)) ids),
   after_inserts (column_defaults E)
                 (snd (loaders_trace E sid exp (clock w) (length (log w)) ids)) w).
Proof.
  revert w; induction ids as [|tid ids IH]; intros w.
  - cbn. now rewrite after_inserts_nil.
  - cbn [map Promise_all loaders_trace]. rewrite loadSingleCompanyData_run.
    destruct (loader_trace E sid tid exp (clock w) (length (log w))) as [r es].
    cbn [fst snd]. rewrite IH. cbn [after_inserts clock log]. rewrite length_app.
    destruct (loaders_trace E sid exp (clock w) (length (log w) + length es) ids)
      as [rs es'].
    cbn [fst snd]. rewrite after_inserts_app. unfold join_results.
    destruct r, rs; reflexivity.
Qed.

Lemma loader_post_row (E : Env) (sid tid : string) (exp now : Z) (res : LoadResult)
      (written : list CompanyRow) :
  loader_post E sid tid exp now (Ok res) written ->
  tenantId res = tid /\
  exists row,
    written = [row] /\ session_id row = sid /\ tenant_id row = tid /\
    expires_at row = exp /\ (is_success_row row \/ is_error_row row) /\
    text_not_null (load_error row) = negb (success res).
Proof.
  unfold loader_post. intros [Htid H]. split; [exact Htid |]. destruct (success res).
  - destruct H as (tok & _ & -> & _). eexists. split; [reflexivity |].
    cbn. unfold is_success_row. cbn. auto 10.
  - destruct H as (msg & -> & _). eexists. split; [reflexivity |].
    cbn. unfold is_error_row. cbn. eauto 10.
Qed.

Lemma loaders_trace_joined (E : Env) (sid : string) (exp now : Z) (ids : list string) :
  forall n results,
    fst (loaders_trace E sid exp now n ids) = Ok results ->
    let written := inserted_rows (column_defaults E) (snd (loaders_trace E sid exp now n ids)) in
    map tenant_id written = ids /\
    map tenantId results = ids /\
    Forall (generation_row sid exp) written /\
    length (List.filter success results) =
    length (List.filter (fun row => negb (text_not_null (load_error row))) written).
Proof.
  induction ids as [|tid ids IH]; intros n results H; cbn [loaders_trace] in *.
  - cbn in H. injection H as <-. cbn. auto.
  - pose proof (loader_trace_post E sid tid exp now n) as Hpost.
    destruct (loader_trace E sid tid exp now n) as [r es].
    specialize (IH (n + length es)%nat).
    destruct (loaders_trace E sid exp now (n + length es) ids) as [rs es'].
    cbn [fst snd] in *. unfold join_results in H.
    destruct r as [res|e]; [| discriminate]. destruct rs as [results'|e]; [| discriminate].
    injection H as <-. specialize (IH results' eq_refl). cbv zeta in IH.
    destruct IH as (Hids & Hres & Hrows & Hcount).
    apply loader_post_row in Hpost as (Htid & row & Hw & Hs & Ht & He & Hkind & Hflag).
    rewrite inserted_rows_app, Hw. cbn [app map List.filter].
    split; [now rewrite Ht, Hids |].
    split; [now rewrite Htid, Hres |].
    split; [constructor; [split; auto | exact Hrows] |].
    rewrite Hflag. destruct (success res); cbn; now rewrite Hcount.
Qed.

Lemma pool_query_rejected (E : Env) (q : Query) (w : World) (e : string) :
  query_fault E (length (log w)) = Some e ->
  pool_query E q w = (Throw e, after_rejected q e w).
Proof. intros H. unfold pool_query. now rewrite H. Qed.

Lemma pool_query_executed (E : Env) (q : Query) (w : World) :
  query_fault E (length (log w)) = None ->
  pool_query E q w =
  (Ok (snd (exec (column_defaults E) (clock w) q (tables w))),
   mkWorld (clock w) (fst (exec (column_defaults E) (clock w) q (tables w)))
           (log w ++ [Executed q])).
Proof.
  intros H. unfold pool_query. rewrite H.
  now destruct (exec (column_defaults E) (clock w) q (tables w)).
Qed.

(** The Session Loader, statement by statement: the DELETE, then the
    loaders, then the upsert of the selection. *)
Lemma loadSessionData_run (E : Env) (sid : string) (ids : list string) (w : World) :
  loadSessionData E sid ids w =
  let n := length (log w) in
  let exp := clock w + sessionTTL in
  match query_fault E n with
  | Some e => (Throw e, after_rejected (DeleteSessionRows sid) e w)
  | None =>
      let trace := loaders_trace E sid exp (clock w) (S n) ids in
      let w2 := after_inserts (column_defaults E) (snd trace) (after_delete sid w) in
      match fst trace with
      | Throw e => (Throw e, w2)
      | Ok results =>
          match query_fault E (S n + length (snd trace)) with
          | Some e => (Throw e, after_rejected (UpsertSelection sid ids "overview") e w2)
          | None =>
              (Ok {| sessionId := sid;
                     totalCompanies := length ids;
                     successfulCompanies := length (List.filter success results);
                     expiresAt := exp |},
               after_upsert sid ids "overview" w2)
          end
      end
  end.
Proof.
  cbv zeta. unfold loadSessionData, bind at 1, Date_now. unfold bind at 1.
  destruct (query_fault E (length (log w))) as [e|] eqn:Hdel.
  - now rewrite (pool_query_rejected _ _ _ _ Hdel).
  - rewrite (pool_query_executed _ _ _ Hdel). cbn [exec fst snd].
    fold (after_delete sid w). unfold bind at 1. rewrite Promise_all_loaders.
    assert (Hlen : length (log (after_delete sid w)) = S (length (log w))).
    { unfold after_delete. cbn [log]. rewrite length_app. cbn. lia. }
    rewrite Hlen. change (clock (after_delete sid w)) with (clock w).
    destruct (loaders_trace E sid (clock w + sessionTTL) (clock w) (S (length (log w))) ids)
      as [[results|e] es]; cbn [fst snd]; [| reflexivity].
    unfold bind at 1, setDisplaySelection, bind at 1.
    assert (Hlen2 : length (log (after_inserts (column_defaults E) es (after_delete sid w)))
                    = (S (length (log w)) + length es)%nat).
    { unfold after_inserts. cbn [log]. rewrite length_app, Hlen. reflexivity. }
    destruct (query_fault E (S (length (log w)) + length es)) as [e|] eqn:Hup.
    + rewrite pool_query_rejected with (e := e) by now rewrite Hlen2. reflexivity.
    + rewrite pool_query_executed by now rewrite Hlen2. reflexivity.
Qed.

Lemma loadSessionData_inv (E : Env) (sid : string) (ids : list string) (w : World)
      (r : SessionSummary) (w' : World) :
  loadSessionData E sid ids w = (Ok r, w') ->
  exists results entries,
    query_fault E (length (log w)) = None /\
    loaders_trace E sid (clock w + sessionTTL) (clock w) (S (length (log w))) ids
      = (Ok results, entries) /\
    r = {| sessionId := sid;
           totalCompanies := length ids;
           successfulCompanies := length (List.filter success results);
           expiresAt := clock w + sessionTTL |} /\
    w' = after_upsert sid ids "overview"
                      (after_inserts (column_defaults E) entries (after_delete sid w)).
Proof.
  rewrite loadSessionData_run. cbv zeta.
  destruct (query_fault E (length (log w))) as [e|]; [discriminate |].
  destruct (loaders_trace E sid (clock w + sessionTTL) (clock w) (S (length (log w))) ids)
    as [[results|e] es]; cbn [fst snd]; [| discriminate].
  destruct (query_fault E (S (length (log w)) + length es)) as [e|]; [discriminate |].
  intros H. injection H as <- <-. exists results, es. auto.
Qed.

Lemma session_rows_deleted (sid : string) (l : list CompanyRow) :
  List.filter (in_session sid) (List.filter (fun r => negb (in_session sid r)) l) = [].
Proof.
  induction l as [|r l IH]; [reflexivity |]. cbn [List.filter].
  destruct (in_session sid r) eqn:H; cbn [negb List.filter]; [exact IH |].
  now rewrite H.
Qed.

Lemma session_rows_generation (sid : string) (exp : Z) (l : list CompanyRow) :
  Forall (generation_row sid exp) l -> List.filter (in_session sid) l = l.
Proof.
  induction 1 as [|r l [Hs _] _ IH]; [reflexivity |]. cbn [List.filter].
  unfold in_session at 1. rewrite Hs, String.eqb_refl. now rewrite IH.
Qed.

(** After a reload the session holds exactly the rows its loaders wrote. *)
Lemma session_rows_after_reload (d : ColumnDefaults) (sid : string) (exp : Z)
      (ids : list string) (view : string) (entries : list LogEntry) (w : World) :
  Forall (generation_row sid exp) (inserted_rows d entries) ->
  session_rows sid (tables (after_upsert sid ids view
                                         (after_inserts d entries (after_delete sid w))))
  = inserted_rows d entries.
Proof.
  intros H. unfold session_rows, after_upsert, after_inserts, after_delete.
  cbn [tables session_company_data]. rewrite List.filter_app, session_rows_deleted.
  cbn [app]. eapply session_rows_generation; eassumption.
Qed.

(** The rows of a session once its reload has completed. *)
Lemma loadSessionData_rows (E : Env) (sid : string) (ids : list string)
      (w : World) (r : SessionSummary) (w' : World) :
  loadSessionData E sid ids w = (Ok r, w') ->
  map tenant_id (session_rows sid (tables w')) = ids /\
  Forall (generation_row sid (clock w + sessionTTL)) (session_rows sid (tables w')).
Proof.
  intros H. apply loadSessionData_inv in H as (results & es & _ & Htrace & _ & ->).
  pose proof (loaders_trace_joined E sid (clock w + sessionTTL) (clock w) ids
                                   (S (length (log w))) results) as J.
  rewrite Htrace in J. specialize (J eq_refl). cbv zeta in J. cbn [snd] in J.
  destruct J as (Hids & _ & Hrows & _).
  rewrite (session_rows_after_reload _ _ _ _ _ _ _ Hrows). auto.
Qed.

(** C1: when [loadSessionData] completes, the session's rows are one per
    requested company identifier, each a success row or an error row of the
    new generation, so that there are as many rows as identifiers, however
    many loaders returned a failure. *)
Theorem loadSessionData_one_row_per_company (E : Env) (sid : string) (ids : list string)
        (w : World) (r : SessionSummary) (w' : World) :
  loadSessionData E sid ids w = (Ok r, w') ->
  let written := session_rows sid (tables w') in
  length written = length ids /\
  Permutation (map tenant_id written) ids /\
  Forall (fun row => is_success_row row \/ is_error_row row) written /\
  Forall (fun row => session_id row = sid /\ expires_at row = clock w + sessionTTL) written.
Proof.
  intros H. apply loadSessionData_rows in H as (Hids & Hrows). cbv zeta.
  split; [erewrite <- length_map; rewrite Hids; reflexivity |].
  split; [now rewrite Hids |].
  split; eapply List.Forall_impl; try exact Hrows; intros row (Hs & He & Hk); auto.
Qed.

Lemma loadSessionData_one_row_per_company_witness :
  loadSessionData env_missing_c "s1" ["a"; "b"; "c"]%string used_world
    = (Ok (mkSessionSummary "s1" 3 2 1801000), reloaded_world) /\
  length (session_rows "s1" (tables used_world)) = 2%nat /\
  length (session_rows "s1" (tables reloaded_world)) = 3%nat /\
  Permutation (map tenant_id (session_rows "s1" (tables reloaded_world)))
              ["a"; "b"; "c"]%string.
Proof.
  assert (H : loadSessionData env_missing_c "s1" ["a"; "b"; "c"]%string used_world
              = (Ok (mkSessionSummary "s1" 3 2 1801000), reloaded_world))
    by (vm_compute; reflexivity).
  pose proof (loadSessionData_one_row_per_company _ _ _ _ _ _ H) as (Hlen & Hperm & _).
  split; [exact H |]. split; [reflexivity |]. split; [exact Hlen | exact Hperm].
Defined.

Lemma loader_trace_reliable (E : Env) (sid tid : string) (exp now : Z) (n : nat) :
  reliable E ->
  exists res entry,
    loader_trace E sid tid exp now n = (Ok res, [entry]) /\
    success res = credential_ok E tid.
Proof.
  intros Hrel. unfold loader_trace, credential_ok.
  destruct (credential_phase E tid) as [tok|msg]; rewrite Hrel; cbn; eauto.
Qed.

Lemma loaders_trace_reliable (E : Env) (sid : string) (exp now : Z) (ids : list string) :
  reliable E ->
  forall n, exists results entries,
    loaders_trace E sid exp now n ids = (Ok results, entries) /\
    length (List.filter success results) = length (List.filter (credential_ok E) ids).
Proof.
  intros Hrel. induction ids as [|tid ids IH]; intros n; cbn [loaders_trace].
  - exists [], []. auto.
  - destruct (loader_trace_reliable E sid tid exp now n Hrel) as (res & entry & -> & Hs).
    destruct (IH (n + length [entry])%nat) as (results & es & -> & Hcount).
    exists (res :: results), ([entry] ++ es). split; [reflexivity |].
    cbn [List.filter]. rewrite Hs. destruct (credential_ok E tid); cbn; now rewrite Hcount.
Qed.

(** With a reliable store the Session Loader completes. *)
Lemma loadSessionData_completes (E : Env) (sid : string) (ids : list string) (w : World) :
  reliable E ->
  exists w',
    loadSessionData E sid ids w =
    (Ok {| sessionId := sid;
           totalCompanies := length ids;
           successfulCompanies := length (List.filter (credential_ok E) ids);
           expiresAt := clock w + sessionTTL |}, w').
Proof.
  intros Hrel. rewrite loadSessionData_run. cbv zeta. rewrite Hrel.
  destruct (loaders_trace_reliable E sid (clock w + sessionTTL) (clock w) ids Hrel
                                   (S (length (log w)))) as (results & es & -> & Hcount).
  cbn [fst snd]. rewrite Hrel, Hcount. eauto.
Qed.







(* ===================================================================== *)
(** ** The Consolidator                                                   *)
(* ===================================================================== *)

Lemma getDisplaySelection_run (E : Env) (sid : string) (w : World) :
  getDisplaySelection E sid w =
  match query_fault E (length (log w)) with
  | Some e => (Throw e, after_rejected (SelectSelection sid) e w)
  | None =>
      (Ok match stored_selection sid w with
          | Some r => mkSelection (selected_tenant_ids r) (current_view r)
          | None => mkSelection [] "overview"
          end,
       mkWorld (clock w) (tables w) (log w ++ [Executed (SelectSelection sid)]))
  end.
Proof.
  unfold getDisplaySelection, bind, stored_selection.
  destruct (query_fault E (length (log w))) as [e|] eqn:H.
  - now rewrite (pool_query_rejected _ _ _ _ H).
  - rewrite (pool_query_executed _ _ _ H). cbn [exec fst snd selection_rows].
    destruct (user_display_selection (tables w) !! sid); reflexivity.
Qed.

Lemma select_live_rows_run (E : Env) (sid : string) (ids : list string) (w : World) :
  (result <- pool_query E (SelectLiveRows sid ids) ;;
   let companies := company_rows result in
   if Nat.eqb (length companies) 0
   then ret (ConsolidatedError "No session data found or session expired")
   else ret (ConsolidatedOk (consolidate companies)))%js w =
  match query_fault E (length (log w)) with
  | Some e => (Throw e, after_rejected (SelectLiveRows sid ids) e w)
  | None => (Ok (consolidated_of (live_rows sid ids w)),
             mkWorld (clock w) (tables w) (log w ++ [Executed (SelectLiveRows sid ids)]))
  end.
Proof.
  unfold bind. destruct (query_fault E (length (log w))) as [e|] eqn:H.
  - now rewrite (pool_query_rejected _ _ _ _ H).
  - rewrite (pool_query_executed _ _ _ H). cbn [exec fst snd company_rows].
    unfold consolidated_of, live_rows.
    destruct (Nat.eqb _ 0); reflexivity.
Qed.

(** What [getConsolidatedData] answers. *)
Lemma getConsolidatedData_fst (E : Env) (sid : string) (sel : option (list string))
      (w : World) :
  fst (getConsolidatedData E sid sel w) =
  match sel with
  | Some ids => select_and_reduce E (length (log w)) sid ids w
  | None =>
      match query_fault E (length (log w)) with
      | Some e => Throw e
      | None => select_and_reduce E (S (length (log w))) sid (resolved_selection sid None w) w
      end
  end.
Proof.
  unfold getConsolidatedData, select_and_reduce. destruct sel as [ids|].
  - unfold bind at 1, ret at 1.
    destruct (Nat.eqb (length ids) 0); [reflexivity |].
    rewrite select_live_rows_run.
    destruct (query_fault E (length (log w))); reflexivity.
  - unfold bind at 1. unfold bind at 1. rewrite getDisplaySelection_run.
    destruct (query_fault E (length (log w))) as [e|]; [reflexivity |].
    unfold ret at 1. unfold resolved_selection.
    set (w1 := mkWorld (clock w) (tables w) (log w ++ [Executed (SelectSelection sid)])).
    assert (Hids : sel_tenant_ids
                     match stored_selection sid w with
                     | Some r => mkSelection (selected_tenant_ids r) (current_view r)
                     | None => mkSelection [] "overview"
                     end =
                   match stored_selection sid w with
                   | Some r => selected_tenant_ids r
                   | None => []
                   end) by (destruct (stored_selection sid w); reflexivity).
    rewrite Hids.
    destruct (Nat.eqb (length match stored_selection sid w with
                               | Some r => selected_tenant_ids r
                               | None => []
                               end) 0); [reflexivity |].
    rewrite select_live_rows_run. subst w1. cbn [log clock tables].
    rewrite length_app, Nat.add_1_r.
    destruct (query_fault E (S (length (log w)))); reflexivity.
Qed.

(** The consolidator does not write to the tables. *)
Lemma getConsolidatedData_reads (E : Env) (sid : string) (sel : option (list string))
      (w : World) :
  exists entries,
    snd (getConsolidatedData E sid sel w) = mkWorld (clock w) (tables w) (log w ++ entries).
Proof.
  unfold getConsolidatedData. destruct sel as [ids|].
  - unfold bind at 1, ret at 1. cbn beta iota.
    destruct (Nat.eqb (length ids) 0).
    + exists []. destruct w. cbn. now rewrite app_nil_r.
    + rewrite select_live_rows_run.
      destruct (query_fault E (length (log w))); eexists; reflexivity.
  - unfold bind at 1. unfold bind at 1. rewrite getDisplaySelection_run.
    destruct (query_fault E (length (log w))) as [e|]; [eexists; reflexivity |].
    unfold ret at 1. cbn beta iota.
    match goal with |- context [Nat.eqb ?n 0] => destruct (Nat.eqb n 0) end;
      [eexists; reflexivity |].
    rewrite select_live_rows_run. cbn [log clock tables].
    match goal with |- context [query_fault E ?n] => destruct (query_fault E n) end;
      unfold after_rejected; cbn [snd log clock tables]; rewrite <- app_assoc;
      eexists; reflexivity.
Qed.

Lemma length_zero_nil {A} (l : list A) : Nat.eqb (length l) 0 = true <-> l = [].
Proof. destruct l; cbn; split; intros H; try reflexivity; discriminate. Qed.

(** C7: with a store that serves its reads, [getConsolidatedData] returns
    "No companies selected" when the resolved selection is empty, "No session
    data found or session expired" when it is not empty and no row of the
    session is selected and unexpired, and the consolidated view of the live
    rows otherwise; both conditions are returned, not thrown. *)
Theorem getConsolidatedData_conditions (E : Env) (sid : string)
        (sel : option (list string)) (w : World) :
  reliable E ->
  let ids := resolved_selection sid sel w in
  let live := live_rows sid ids w in
  (ids = [] ->
   fst (getConsolidatedData E sid sel w) = Ok (ConsolidatedError "No companies selected")) /\
  (ids <> [] -> live = [] ->
   fst (getConsolidatedData E sid sel w) =
     Ok (ConsolidatedError "No session data found or session expired")) /\
  (ids <> [] -> live <> [] ->
   fst (getConsolidatedData E sid sel w) = Ok (ConsolidatedOk (consolidate live))) /\
  tables (snd (getConsolidatedData E sid sel w)) = tables w.
Proof.
  intros Hrel. cbv zeta. rewrite getConsolidatedData_fst.
  assert (H : match sel with
              | Some ids => select_and_reduce E (length (log w)) sid ids w
              | None =>
                  match query_fault E (length (log w)) with
                  | Some e => Throw e
                  | None => select_and_reduce E (S (length (log w))) sid
                                              (resolved_selection sid None w) w
                  end
              end =
              if Nat.eqb (length (resolved_selection sid sel w)) 0
              then Ok (ConsolidatedError "No companies selected")
              else Ok (consolidated_of (live_rows sid (resolved_selection sid sel w) w))).
  { unfold select_and_reduce. destruct sel as [ids|]; rewrite !Hrel; reflexivity. }
  rewrite H. clear H. unfold consolidated_of.
  split; [| split; [| split]].
  - intros ->. reflexivity.
  - intros Hids ->. apply (not_iff_compat (length_zero_nil _)) in Hids.
    apply not_true_is_false in Hids. now rewrite Hids.
  - intros Hids Hlive. apply (not_iff_compat (length_zero_nil _)) in Hids, Hlive.
    apply not_true_is_false in Hids, Hlive. now rewrite Hids, Hlive.
  - destruct (getConsolidatedData_reads E sid sel w) as [entries ->]. reflexivity.
Qed.

Lemma getConsolidatedData_conditions_witness :
  reliable env_missing_c /\
  fst (getConsolidatedData env_missing_c "s1" (Some []) reloaded_world)
    = Ok (ConsolidatedError "No companies selected") /\
  fst (getConsolidatedData env_missing_c "s1" None (advance sessionTTL reloaded_world))
    = Ok (ConsolidatedError "No session data found or session expired") /\
  fst (getConsolidatedData env_missing_c "s1" None reloaded_world)
    = Ok (ConsolidatedOk (consolidate (session_rows "s1" (tables reloaded_world)))).
Proof.
  assert (Hrel : reliable env_missing_c) by (intros n; reflexivity).
  split; [exact Hrel |]. split; [| split].
  - apply (getConsolidatedData_conditions env_missing_c "s1" (Some []) reloaded_world Hrel).
    reflexivity.
  - apply (getConsolidatedData_conditions env_missing_c "s1" None
                                          (advance sessionTTL reloaded_world) Hrel).
    + vm_compute. discriminate.
    + vm_compute. reflexivity.
  - pose proof (getConsolidatedData_conditions env_missing_c "s1" None reloaded_world Hrel)
      as (_ & _ & H & _).
    rewrite H.
    + vm_compute. reflexivity.
    + vm_compute. discriminate.
    + vm_compute. discriminate.
Defined.

(** The live rows of a session are selected among its rows. *)
Lemma live_rows_of_session (sid : string) (ids : list string) (w : World) :
  live_rows sid ids w =
  List.filter (fun r => any_of ids (tenant_id r) && (clock w <? expires_at r))%bool
              (session_rows sid (tables w)).
Proof.
  unfold live_rows, session_rows.
  induction (session_company_data (tables w)) as [|r l IH]; [reflexivity |].
  cbn [List.filter]. unfold live_selected at 1.
  destruct (in_session sid r); cbn [andb List.filter]; [| exact IH].
  destruct (any_of ids (tenant_id r) && (clock w <? expires_at r))%bool; now rewrite IH.
Qed.

(** The answer of the consolidator depends on the world through the time,
    the number of statements issued, and the selection and rows of the
    session only. *)
Lemma getConsolidatedData_frame (E : Env) (sid : string) (sel : option (list string))
      (w1 w2 : World) :
  clock w1 = clock w2 ->
  length (log w1) = length (log w2) ->
  stored_selection sid w1 = stored_selection sid w2 ->
  session_rows sid (tables w1) = session_rows sid (tables w2) ->
  fst (getConsolidatedData E sid sel w1) = fst (getConsolidatedData E sid sel w2).
Proof.
  intros Hclock Hlog Hsel Hrows. rewrite !getConsolidatedData_fst.
  unfold select_and_reduce, resolved_selection.
  destruct sel as [ids|];
    rewrite !live_rows_of_session, Hclock, Hlog, ?Hsel, Hrows; reflexivity.
Qed.

(** C2: a reload that completes has executed the DELETE of the session's
    rows before any other statement; afterwards the session holds exactly
    the rows inserted after that DELETE, all expiring with the new
    generation; and whatever the tables held before, the reload returns the
    same summary and every later consolidation, under any selection,
    answers the same. *)
Theorem reload_discards_prior_generation (E : Env) (sid : string) (ids : list string)
        (w : World) (r : SessionSummary) (w' : World) :
  loadSessionData E sid ids w = (Ok r, w') ->
  exists later,
    log w' = log w ++ Executed (DeleteSessionRows sid) :: later /\
    session_rows sid (tables w') = inserted_rows (column_defaults E) later /\
    Forall (fun row => expires_at row = clock w + sessionTTL) (session_rows sid (tables w')) /\
    forall w0,
      clock w0 = clock w -> length (log w0) = length (log w) ->
      exists w0',
        loadSessionData E sid ids w0 = (Ok r, w0') /\
        forall dt sel,
          fst (getConsolidatedData E sid sel (advance dt w0')) =
          fst (getConsolidatedData E sid sel (advance dt w')).
Proof.
  intros H. pose proof H as H0.
  apply loadSessionData_inv in H as (results & es & Hdel & Htrace & -> & ->).
  pose proof (loaders_trace_joined E sid (clock w + sessionTTL) (clock w) ids
                                   (S (length (log w))) results) as J.
  rewrite Htrace in J. specialize (J eq_refl). cbv zeta in J. cbn [snd] in J.
  destruct J as (_ & _ & Hrows & _).
  exists (es ++ [Executed (UpsertSelection sid ids "overview")]).
  split; [| split; [| split]].
  - unfold after_upsert, after_inserts, after_delete. cbn [log].
    rewrite <- !app_assoc. reflexivity.
  - rewrite (session_rows_after_reload _ _ _ _ _ _ _ Hrows).
    rewrite inserted_rows_app. cbn. now rewrite app_nil_r.
  - rewrite (session_rows_after_reload _ _ _ _ _ _ _ Hrows).
    eapply List.Forall_impl; [| exact Hrows]. intros row (_ & He & _). exact He.
  - intros w0 Hclock Hlog.
    eexists. split.
    + rewrite loadSessionData_run. cbv zeta. rewrite Hclock, Hlog, Hdel, Htrace.
      cbn [fst snd].
      rewrite loadSessionData_run in H0. cbv zeta in H0.
      rewrite Hdel, Htrace in H0. cbn [fst snd] in H0.
      destruct (query_fault E (S (length (log w)) + length es)); [discriminate |].
      reflexivity.
    + intros dt sel. apply getConsolidatedData_frame.
      * cbn. now rewrite Hclock.
      * cbn. rewrite !length_app. cbn. now rewrite Hlog.
      * unfold stored_selection, advance, after_upsert. cbn [tables user_display_selection clock].
        rewrite !lookup_insert_eq. unfold after_inserts, after_delete. cbn [clock]. now rewrite Hclock.
      * unfold advance. cbn [tables].
        now rewrite !(session_rows_after_reload _ _ _ _ _ _ _ Hrows).
Qed.

Lemma reload_discards_prior_generation_witness :
  loadSessionData env_missing_c "s1" ["a"; "b"; "c"]%string used_world
    = (Ok (mkSessionSummary "s1" 3 2 1801000), reloaded_world) /\
  In (stale_row "s1" "a") (session_rows "s1" (tables used_world)) /\
  ~ In (stale_row "s1" "a") (session_rows "s1" (tables reloaded_world)) /\
  (exists later,
      log reloaded_world = log used_world ++ Executed (DeleteSessionRows "s1") :: later /\
      session_rows "s1" (tables reloaded_world) = inserted_rows zero_defaults later) /\
  fst (getConsolidatedData env_missing_c "s1" (Some ["a"; "z"]%string)
         (advance 60000 reloaded_world)) =
  fst (getConsolidatedData env_missing_c "s1" (Some ["a"; "z"]%string)
         (advance 60000
            (snd (loadSessionData env_missing_c "s1" ["a"; "b"; "c"]%string fresh_world)))).
Proof.
  assert (H : loadSessionData env_missing_c "s1" ["a"; "b"; "c"]%string used_world
              = (Ok (mkSessionSummary "s1" 3 2 1801000), reloaded_world))
    by (vm_compute; reflexivity).
  destruct (reload_discards_prior_generation _ _ _ _ _ _ H)
    as (later & Hlog & Hrows & Hexp & Hfresh).
  split; [exact H |]. split; [left; reflexivity |]. split; [| split].
  - intros Hin. rewrite List.Forall_forall in Hexp. apply Hexp in Hin. discriminate.
  - exists later. split; [exact Hlog | exact Hrows].
  - destruct (Hfresh fresh_world eq_refl eq_refl) as (w0' & Hload & Hsame).
    rewrite Hload. cbn [snd]. symmetry.
    exact (Hsame 60000 (Some ["a"; "z"]%string)).
Defined.

(* ===================================================================== *)
(** ** The Selection Store                                                *)
(* ===================================================================== *)

Lemma setDisplaySelection_run (E : Env) (sid : string) (ids : list string)
      (view : option string) (w : World) :
  setDisplaySelection E sid ids view w =
  let v := match view with Some v => v | None => "overview"%string end in
  match query_fault E (length (log w)) with
  | Some e => (Throw e, after_rejected (UpsertSelection sid ids v) e w)
  | None => (Ok tt, after_upsert sid ids v w)
  end.
Proof.
  cbv zeta. unfold setDisplaySelection, bind.
  destruct (query_fault E (length (log w))) as [e|] eqn:H.
  - now rewrite (pool_query_rejected _ _ _ _ H).
  - now rewrite (pool_query_executed _ _ _ H).
Qed.

(** C9, as the code has it: what [setDisplaySelection] stored is what
    [getDisplaySelection] returns; a later call with other values replaces
    both the identifiers and the view; and a later call with the same
    values leaves the stored identifiers and view as they were, only
    [last_updated] moving to the time of that call, so that by then the
    tables are those of a single call made at that time (and are unchanged
    when no time has passed).  Other sessions are not touched. *)
Theorem selection_round_trip (E : Env) (sid : string) (ids1 ids2 : list string)
        (view1 view2 : string) (dt : Z) (w : World) :
  reliable E ->
  let w1 := snd (setDisplaySelection E sid ids1 (Some view1) w) in
  let w2 := snd (setDisplaySelection E sid ids2 (Some view2) (advance dt w1)) in
  let w3 := snd (setDisplaySelection E sid ids1 (Some view1) (advance dt w1)) in
  fst (getDisplaySelection E sid w1) = Ok (mkSelection ids1 view1) /\
  fst (getDisplaySelection E sid w2) = Ok (mkSelection ids2 view2) /\
  stored_selection sid w2 = Some (mkSelectionRow ids2 view2 (clock w + dt)) /\
  fst (getDisplaySelection E sid w3) = fst (getDisplaySelection E sid w1) /\
  stored_selection sid w3 = Some (mkSelectionRow ids1 view1 (clock w + dt)) /\
  tables w3 = tables (snd (setDisplaySelection E sid ids1 (Some view1) (advance dt w))) /\
  (dt = 0 -> tables w3 = tables w1) /\
  (forall sid', sid' <> sid -> stored_selection sid' w3 = stored_selection sid' w).
Proof.
  intros Hrel. cbv zeta. rewrite !setDisplaySelection_run. cbv zeta. rewrite !Hrel.
  cbn [snd]. rewrite !getDisplaySelection_run, !Hrel. cbn [fst].
  unfold stored_selection, after_upsert, advance.
  cbn [tables user_display_selection clock session_company_data].
  rewrite !lookup_insert_eq, !insert_insert_eq.
  split; [reflexivity |]. split; [reflexivity |]. split; [reflexivity |].
  split; [reflexivity |]. split; [reflexivity |]. split; [reflexivity |].
  split.
  - intros ->. now rewrite Z.add_0_r.
  - intros sid' Hne. now rewrite lookup_insert_ne by congruence.
Qed.

Lemma selection_round_trip_witness :
  reliable env_missing_c /\
  fst (getDisplaySelection env_missing_c "s1"
         (snd (setDisplaySelection env_missing_c "s1" ["b"; "a"]%string (Some "cash"%string)
                                   used_world)))
    = Ok (mkSelection ["b"; "a"]%string "cash").
Proof.
  assert (Hrel : reliable env_missing_c) by (intros n; reflexivity).
  split; [exact Hrel |].
  apply (selection_round_trip env_missing_c "s1" ["b"; "a"]%string [] "cash" "" 0
                              used_world Hrel).
Defined.

(** C9, as worded: two calls with identical arguments made one second apart
    do not leave the stored state of the first, [last_updated] differs. *)
Lemma selection_idempotence_counterexample :
  stored_selection "s1" selection_set_once
    = Some (mkSelectionRow ["a"]%string "overview" 0) /\
  stored_selection "s1" selection_set_twice
    = Some (mkSelectionRow ["a"]%string "overview" 1000) /\
  tables selection_set_twice <> tables selection_set_once.
Proof.
  split; [reflexivity |]. split; [reflexivity |].
  intros H. apply (f_equal (fun t => user_display_selection t !! "s1"%string)) in H.
  vm_compute in H. discriminate.
Qed.

(* ===================================================================== *)
(** ** The name of a company whose load failed                            *)
(* ===================================================================== *)

(** C10: a loader that returns [{success: false}] has written a row whose
    [tenant_name] is "Unknown Company", whatever name the token carried;
    and whenever that row is stored and live and the company is selected,
    explicitly or by the stored selection, a served [getConsolidatedData]
    returns a view that lists the company under that name with its
    error. *)
Theorem failed_load_is_unknown_company (E : Env) (sid tid : string) (exp : Z) (w : World)
        (res : LoadResult) (w' : World) :
  loadSingleCompanyData E sid tid exp w = (Ok res, w') ->
  success res = false ->
  exists message row,
    error res = Some message /\
    row = error_row (column_defaults E) sid tid "Unknown Company" false message exp /\
    session_company_data (tables w') = session_company_data (tables w) ++ [row] /\
    tenant_name row = "Unknown Company"%string /\
    forall w2 sel,
      In row (session_company_data (tables w2)) ->
      In tid (resolved_selection sid sel w2) ->
      clock w2 < exp ->
      (forall n, (length (log w2) <= n)%nat -> query_fault E n = None) ->
      exists view c,
        fst (getConsolidatedData E sid sel w2) = Ok (ConsolidatedOk view) /\
        In c (companies view) /\ cv_tenantId c = tid /\
        cv_tenantName c = "Unknown Company"%string /\ cv_error c = Some message.
Proof.
  intros H Hfail. rewrite loadSingleCompanyData_run in H.
  pose proof (loader_trace_post E sid tid exp (clock w) (length (log w))) as Hpost.
  injection H as Hres Hw. rewrite Hres in Hpost. unfold loader_post in Hpost.
  rewrite Hfail in Hpost. destruct Hpost as (_ & message & Hrows & _ & Herr).
  exists message, (error_row (column_defaults E) sid tid "Unknown Company" false message exp).
  split; [exact Herr |]. split; [reflexivity |].
  split; [rewrite <- Hw; unfold after_inserts; cbn [tables session_company_data];
          now rewrite Hrows |].
  split; [reflexivity |].
  intros w2 sel Hin Hsel Hlive Hserved.
  assert (Hrow : In (error_row (column_defaults E) sid tid "Unknown Company" false message exp)
                    (live_rows sid (resolved_selection sid sel w2) w2)).
  { unfold live_rows. apply filter_In. split; [exact Hin |].
    unfold live_selected, in_session, any_of. cbn [session_id tenant_id expires_at error_row].
    rewrite String.eqb_refl. cbn [andb].
    apply andb_true_iff. split; [| now apply Z.ltb_lt].
    apply existsb_exists. exists tid. split; [exact Hsel | apply String.eqb_refl]. }
  exists (consolidate (live_rows sid (resolved_selection sid sel w2) w2)),
         (company_view (error_row (column_defaults E) sid tid "Unknown Company" false
                                  message exp)).
  split; [| split; [cbn [companies consolidate]; now apply in_map | cbn; auto]].
  rewrite getConsolidatedData_fst.
  assert (Hred : forall k, (length (log w2) <= k)%nat ->
                           select_and_reduce E k sid (resolved_selection sid sel w2) w2
                           = Ok (ConsolidatedOk
                                   (consolidate
                                      (live_rows sid (resolved_selection sid sel w2) w2)))).
  { intros k Hk. unfold select_and_reduce, consolidated_of. rewrite (Hserved k Hk).
    destruct (resolved_selection sid sel w2) as [|t sel'] eqn:Hr; [destruct Hsel |].
    cbn [length Nat.eqb].
    destruct (live_rows sid (t :: sel') w2) as [|r0 l0]; [destruct Hrow | reflexivity]. }
  destruct sel as [ids|].
  - apply (Hred (length (log w2))). lia.
  - rewrite (Hserved (length (log w2))) by lia. apply Hred. lia.
Qed.

Lemma failed_load_is_unknown_company_witness :
  getXeroToken env_apply_fails "a" = Ok (Some (mkTokenData "Company a")) /\
  loadSingleCompanyData env_apply_fails "s1" "a" 1801000 used_world
    = (Ok (mkLoadResult false "a" None (Some "invalid_grant"%string)),
       snd (loadSingleCompanyData env_apply_fails "s1" "a" 1801000 used_world)) /\
  exists view c,
    fst (getConsolidatedData env_apply_fails "s1" (Some ["a"]%string)
           (snd (loadSingleCompanyData env_apply_fails "s1" "a" 1801000 used_world)))
    = Ok (ConsolidatedOk view) /\
    In c (companies view) /\ cv_tenantId c = "a"%string /\
    cv_tenantName c = "Unknown Company"%string /\
    cv_error c = Some "invalid_grant"%string.
Proof.
  assert (H : loadSingleCompanyData env_apply_fails "s1" "a" 1801000 used_world
              = (Ok (mkLoadResult false "a" None (Some "invalid_grant"%string)),
                 snd (loadSingleCompanyData env_apply_fails "s1" "a" 1801000 used_world)))
    by (vm_compute; reflexivity).
  split; [reflexivity |]. split; [exact H |].
  destruct (failed_load_is_unknown_company _ _ _ _ _ _ _ H eq_refl)
    as (message & row & Herr & Hrow & Htable & Hname & Hcons).
  cbn in Herr. injection Herr as <-.
  destruct (Hcons (snd (loadSingleCompanyData env_apply_fails "s1" "a" 1801000 used_world))
                  (Some ["a"]%string))
    as (view & c & Hview & Hc).
  - rewrite Htable. apply in_or_app. right. now left.
  - now left.
  - vm_compute. reflexivity.
  - intros n _. reflexivity.
  - exists view, c. split; [exact Hview | exact Hc].
Defined.

(** The scenario of three companies of which one has no token, end to end:
    the consolidation over the three lists them all, two with data and one
    with an error. *)
Example three_companies_one_without_token :
  match fst (getConsolidatedData env_missing_c "s1" None reloaded_world) with
  | Ok (ConsolidatedOk view) =>
      summary view = mkSummary 3 2 2 1 /\
      Permutation (map cv_tenantName (companies view))
                  ["Company a"; "Company b"; "Unknown Company"]%string /\
      sumAssets (totals view) = 200%float /\
      sumCash (totals view) = 3400.5%float
  | _ => False
  end.
Proof. vm_compute. repeat split; reflexivity. Qed.

(* ===================================================================== *)
(** ** [parseInt] on the text of a count                                  *)
(* ===================================================================== *)

Lemma is_digit_bounds (c : ascii) :
  is_digit c = true -> (48 <= nat_of_ascii c <= 57)%nat.
Proof.
  unfold is_digit. intros H. apply andb_true_iff in H as [H1 H2].
  apply Nat.leb_le in H1, H2. lia.
Qed.

Ltac byte_tests c :=
  unfold byte_is;
  repeat match goal with
         | |- context [Nat.eqb (nat_of_ascii c) ?k] =>
             replace (Nat.eqb (nat_of_ascii c) k) with false
               by (symmetry; apply Nat.eqb_neq; lia)
         | |- context [Nat.leb (nat_of_ascii c) ?k] =>
             replace (Nat.leb (nat_of_ascii c) k) with false
               by (symmetry; apply Nat.leb_gt; lia)
         end.

Lemma trimStart_digit (c : ascii) (r : string) :
  is_digit c = true -> trimStart (String c r) = String c r.
Proof.
  intros H. apply is_digit_bounds in H.
  destruct r as [|c2 [|c3 r3]]; cbn [trimStart]; byte_tests c;
    rewrite ?andb_false_r; reflexivity.
Qed.

(** On a text that starts with a digit and has no [x] after it, [parseInt]
    is the value of the run of decimal digits. *)
Lemma parseInt_decimal (c : ascii) (r : string) :
  is_digit c = true ->
  (forall c2 r2, r = String c2 r2 -> is_digit c2 = true) ->
  parseInt (String c r) =
  let '(v, n, _) := read_digits (String c r) 0 0 in
  if n =? 0 then None else Some v.
Proof.
  intros Hc Hr. unfold parseInt. rewrite (trimStart_digit _ _ Hc).
  pose proof (is_digit_bounds _ Hc) as Hb.
  assert (H45 : byte_is c 45 = false) by (byte_tests c; reflexivity).
  assert (H43 : byte_is c 43 = false) by (byte_tests c; reflexivity).
  rewrite H45, H43.
  destruct r as [|c2 r2].
  - destruct (read_digits (String c "") 0 0) as [[v n] rest]. reflexivity.
  - pose proof (is_digit_bounds _ (Hr c2 r2 eq_refl)) as Hb2.
    assert (Hx : (byte_is c2 120 || byte_is c2 88)%bool = false)
      by (byte_tests c2; reflexivity).
    rewrite Hx, andb_false_r.
    destruct (read_digits (String c (String c2 r2)) 0 0) as [[v n] rest]. reflexivity.
Qed.

Lemma read_digits_uint (d : Decimal.uint) (a : nat) (n : Z) :
  read_digits (NilEmpty.string_of_uint d) (Z.of_nat a) n =
  (Z.of_nat (Nat.of_uint_acc d a), n + Z.of_nat (Decimal.nb_digits d), EmptyString).
Proof.
  revert a n; induction d; intros a n; cbn [NilEmpty.string_of_uint Nat.of_uint_acc Decimal.nb_digits];
    [ now rewrite Z.add_0_r
    | cbn [read_digits];
      match goal with
      | |- context [is_digit ?ch] => change (is_digit ch) with true
      end;
      cbv iota;
      match goal with
      | |- read_digits _ ?acc ?cnt = _ =>
          match goal with
          | |- context [Nat.of_uint_acc d ?b] =>
              replace acc with (Z.of_nat b)
                by (rewrite Nat.tail_mul_spec; unfold digit_value; cbn [nat_of_ascii]; 
                    vm_compute (Z.of_nat _ - 48) || idtac; lia)
          end
      end;
      rewrite IHd; f_equal; f_equal; lia .. ].
Qed.

Lemma uint_text_head (d : Decimal.uint) (c : ascii) (r : string) :
  NilEmpty.string_of_uint d = String c r ->
  is_digit c = true /\ exists d', r = NilEmpty.string_of_uint d' /\
                                  Decimal.nb_digits d = S (Decimal.nb_digits d').
Proof.
  destruct d; cbn [NilEmpty.string_of_uint]; intros H; try discriminate;
    injection H as <- <-; (split; [reflexivity | eexists; split; reflexivity]).
Qed.

Lemma parseInt_uint (d : Decimal.uint) :
  d <> Decimal.Nil ->
  parseInt (NilEmpty.string_of_uint d) = Some (Z.of_nat (Nat.of_uint d)).
Proof.
  intros Hd.
  destruct (NilEmpty.string_of_uint d) as [|c r] eqn:Htext.
  - destruct d; cbn in Htext; congruence.
  - destruct (uint_text_head _ _ _ Htext) as (Hc & d' & Hr & Hlen).
    rewrite parseInt_decimal.
    + rewrite <- Htext. change 0 with (Z.of_nat 0) at 1. rewrite read_digits_uint.
      rewrite Hlen. unfold Nat.of_uint.
      destruct (0 + Z.of_nat (S (Decimal.nb_digits d')) =? 0) eqn:Hz;
        [apply Z.eqb_eq in Hz; lia | reflexivity].
    + exact Hc.
    + intros c2 r2 Hr2. rewrite Hr2 in Hr. symmetry in Hr.
      apply uint_text_head in Hr. tauto.
Qed.

(** The count that the store prints is the count that [parseInt] reads. *)
Lemma parseInt_decimal_text (n : nat) : parseInt (decimal_text n) = Some (Z.of_nat n).
Proof.
  unfold decimal_text, NilZero.string_of_uint.
  destruct (Nat.to_uint n) eqn:Hd;
    [ apply (f_equal Nat.of_uint) in Hd; rewrite Unsigned.of_to in Hd; subst n; reflexivity
    | rewrite <- (Unsigned.of_to n), Hd; apply parseInt_uint; discriminate .. ].
Qed.

(* ===================================================================== *)
(** ** The Freshness Check                                                *)
(* ===================================================================== *)

Lemma live_in_session_rows (sid : string) (w : World) :
  List.filter (live_in_session (clock w) sid) (session_company_data (tables w)) =
  live_session_rows sid w.
Proof.
  unfold live_session_rows, session_rows.
  induction (session_company_data (tables w)) as [|r l IH]; [reflexivity |].
  cbn [List.filter]. unfold live_in_session at 1.
  destruct (in_session sid r); cbn [andb List.filter]; [| exact IH].
  destruct (clock w <? expires_at r); now rewrite IH.
Qed.

Lemma fold_min_spec (l : list Z) (x : Z) :
  let m := fold_left Z.min l x in
  In m (x :: l) /\ forall y, In y (x :: l) -> m <= y.
Proof.
  revert x; induction l as [|a l IH]; intros x; cbn [fold_left].
  - split; [left; reflexivity | intros y [<- | []]; lia].
  - destruct (IH (Z.min x a)) as [Hin Hle]. split.
    + destruct Hin as [Hm | Hm]; [| right; right; exact Hm].
      rewrite <- Hm. destruct (Z.min_spec x a) as [[_ ->] | [_ ->]]; cbn; auto.
    + intros y [<- | [<- | Hy]].
      * specialize (Hle (Z.min x a) (or_introl eq_refl)). lia.
      * specialize (Hle (Z.min x a) (or_introl eq_refl)). lia.
      * apply Hle. right; exact Hy.
Qed.

Lemma minimum_spec (l : list Z) :
  match minimum l with
  | None => l = []
  | Some m => In m l /\ forall y, In y l -> m <= y
  end.
Proof.
  destruct l as [|x l]; cbn [minimum]; [reflexivity | apply fold_min_spec].
Qed.

(** What a served [hasValidSessionData] returns, in terms of the unexpired
    rows of the session; its statement is logged. *)
Lemma hasValidSessionData_run (E : Env) (sid : string) (w : World) :
  query_fault E (length (log w)) = None ->
  hasValidSessionData E sid w =
  (Ok {| hasData := 0 <? Z.of_nat (length (live_session_rows sid w));
         companiesCount := Some (Z.of_nat (length (live_session_rows sid w)));
         earliestExpiry := minimum (map expires_at (live_session_rows sid w)) |},
   mkWorld (clock w) (tables w) (log w ++ [Executed (SelectValidity sid)])).
Proof.
  intros H. unfold hasValidSessionData, bind.
  rewrite (pool_query_executed _ _ _ H). cbn [exec fst snd validity_rows].
  unfold select_validity, ret. cbn [count earliest_expiry].
  rewrite live_in_session_rows, parseInt_decimal_text. reflexivity.
Qed.

Lemma hasValidSessionData_rejected (E : Env) (sid : string) (w : World) (e : string) :
  query_fault E (length (log w)) = Some e ->
  hasValidSessionData E sid w = (Throw e, after_rejected (SelectValidity sid) e w).
Proof.
  intros H. unfold hasValidSessionData, bind.
  now rewrite (pool_query_rejected _ _ _ _ H).
Qed.

(** X1: a served [hasValidSessionData] reports the number of unexpired rows
    of the session, success rows and error rows alike; [hasData] holds
    exactly when there is one; and [expiresAt] is null when there is none
    and otherwise the smallest expiry among them, which lies in the
    future.  The tables are left as they were, and the statement is in the
    log. *)
Theorem hasValidSessionData_counts_live_rows (E : Env) (sid : string) (w : World) :
  query_fault E (length (log w)) = None ->
  exists v,
    hasValidSessionData E sid w
    = (Ok v, mkWorld (clock w) (tables w) (log w ++ [Executed (SelectValidity sid)])) /\
    companiesCount v = Some (Z.of_nat (length (live_session_rows sid w))) /\
    (hasData v = true <-> live_session_rows sid w <> []) /\
    (earliestExpiry v = None <-> live_session_rows sid w = []) /\
    (forall m, earliestExpiry v = Some m ->
               clock w < m /\
               (exists r, In r (live_session_rows sid w) /\ expires_at r = m) /\
               (forall r, In r (live_session_rows sid w) -> m <= expires_at r)).
Proof.
  intros H. eexists. split; [apply (hasValidSessionData_run E sid w H) |].
  cbn [hasData companiesCount earliestExpiry].
  split; [reflexivity |].
  pose proof (minimum_spec (map expires_at (live_session_rows sid w))) as Hmin.
  split; [| split].
  - rewrite Z.ltb_lt. destruct (live_session_rows sid w); cbn [length]; split;
      intros; try lia; congruence.
  - destruct (minimum (map expires_at (live_session_rows sid w))) as [m|].
    + destruct Hmin as [Hin _]. split; [discriminate |].
      intros Hnil. rewrite Hnil in Hin. destruct Hin.
    + apply map_eq_nil in Hmin. split; auto.
  - intros m Hm. rewrite Hm in Hmin. destruct Hmin as [Hin Hle].
    apply in_map_iff in Hin as (r & Hr & Hin).
    split; [| split].
    + unfold live_session_rows in Hin. apply filter_In in Hin as [_ Hlive].
      apply Z.ltb_lt in Hlive. lia.
    + exists r. auto.
    + intros r' Hr'. apply Hle. now apply in_map.
Qed.

Lemma hasValidSessionData_counts_live_rows_witness :
  query_fault env_missing_c (length (log used_world)) = None /\
  exists v,
    hasValidSessionData env_missing_c "s1" used_world
    = (Ok v, mkWorld 1000 (tables used_world)
                     [Executed (SelectSelection "s1"); Executed (SelectValidity "s1")]) /\
    companiesCount v = Some 2 /\ hasData v = true.
Proof.
  assert (H : query_fault env_missing_c (length (log used_world)) = None) by reflexivity.
  split; [exact H |].
  destruct (hasValidSessionData_counts_live_rows env_missing_c "s1" used_world H)
    as (v & Hv & Hcount & Hhas & _).
  exists v. split; [exact Hv |]. split; [rewrite Hcount; reflexivity |].
  apply Hhas. vm_compute. discriminate.
Defined.

(* ===================================================================== *)
(** ** More on the Session Loader                                         *)
(* ===================================================================== *)

(** Whatever the loaders return, the rows they insert are rows of the new
    generation of the session. *)
Lemma loaders_trace_rows (E : Env) (sid : string) (exp now : Z) (ids : list string) (n : nat) :
  Forall (generation_row sid exp)
         (inserted_rows (column_defaults E) (snd (loaders_trace E sid exp now n ids))) /\
  (length (inserted_rows (column_defaults E) (snd (loaders_trace E sid exp now n ids)))
   <= length ids)%nat.
Proof.
  revert n; induction ids as [|tid ids IH]; intros n; cbn [loaders_trace].
  - cbn. split; [constructor | lia].
  - pose proof (loader_trace_post E sid tid exp now n) as Hpost.
    destruct (loader_trace E sid tid exp now n) as [r es].
    specialize (IH (n + length es)%nat).
    destruct (loaders_trace E sid exp now (n + length es) ids) as [rs es'].
    cbn [fst snd] in *. rewrite inserted_rows_app, length_app. destruct IH as [IH1 IH2].
    destruct r as [res|e].
    + apply loader_post_row in Hpost as (_ & row & -> & Hs & _ & He & Hk & _).
      split; [| cbn [length]; lia].
      apply Forall_app. split; [| exact IH1].
      constructor; [| constructor]. unfold generation_row. auto.
    + cbn in Hpost. rewrite Hpost. split; [exact IH1 | cbn [length app]; lia].
Qed.

(** Whatever the loaders return, each identifier has at most one of the
    rows they insert. *)
Lemma loaders_trace_tenants (E : Env) (sid : string) (exp now : Z) (ids : list string)
      (n : nat) :
  exists missing,
    Permutation
      (map tenant_id (inserted_rows (column_defaults E) (snd (loaders_trace E sid exp now n ids)))
       ++ missing) ids.
Proof.
  revert n; induction ids as [|tid ids IH]; intros n; cbn [loaders_trace].
  - exists []. reflexivity.
  - pose proof (loader_trace_post E sid tid exp now n) as Hpost.
    destruct (loader_trace E sid tid exp now n) as [r es].
    destruct (IH (n + length es)%nat) as [missing Hperm].
    destruct (loaders_trace E sid exp now (n + length es) ids) as [rs es'].
    cbn [fst snd] in *. rewrite inserted_rows_app, map_app.
    destruct r as [res|e].
    + apply loader_post_row in Hpost as (_ & row & -> & _ & Ht & _).
      exists missing. cbn [map app]. rewrite Ht. now apply perm_skip.
    + cbn in Hpost. rewrite Hpost. cbn [map app]. exists (tid :: missing).
      rewrite <- Hperm. symmetry. apply Permutation_middle.
Qed.

(** The worlds a reload can end in. *)
Lemma loadSessionData_outcomes (E : Env) (sid : string) (ids : list string) (w : World) :
  (exists e,
      query_fault E (length (log w)) = Some e /\
      loadSessionData E sid ids w = (Throw e, after_rejected (DeleteSessionRows sid) e w)) \/
  (exists entries,
      query_fault E (length (log w)) = None /\
      Forall (generation_row sid (clock w + sessionTTL))
             (inserted_rows (column_defaults E) entries) /\
      (length (inserted_rows (column_defaults E) entries) <= length ids)%nat /\
      (exists missing,
          Permutation (map tenant_id (inserted_rows (column_defaults E) entries) ++ missing)
                      ids) /\
      let w2 := after_inserts (column_defaults E) entries (after_delete sid w) in
      ((exists e, loadSessionData E sid ids w = (Throw e, w2)) \/
       (exists e, loadSessionData E sid ids w =
                  (Throw e, after_rejected (UpsertSelection sid ids "overview") e w2)) \/
       (exists r, loadSessionData E sid ids w = (Ok r, after_upsert sid ids "overview" w2)))).
Proof.
  rewrite loadSessionData_run. cbv zeta.
  destruct (query_fault E (length (log w))) as [e|]; [left; eauto |]. right.
  pose proof (loaders_trace_rows E sid (clock w + sessionTTL) (clock w) ids
                                 (S (length (log w)))) as [Hrows Hlen].
  pose proof (loaders_trace_tenants E sid (clock w + sessionTTL) (clock w) ids
                                    (S (length (log w)))) as Hten.
  destruct (loaders_trace E sid (clock w + sessionTTL) (clock w) (S (length (log w))) ids)
    as [[results|e] es]; cbn [fst snd] in *; exists es;
    (split; [reflexivity |]); (split; [exact Hrows |]); (split; [exact Hlen |]);
    (split; [exact Hten |]).
  - destruct (query_fault E (S (length (log w)) + length es)) as [e|]; eauto.
  - eauto.
Qed.

Lemma session_rows_other (sid sid' : string) (exp : Z) (old new : list CompanyRow) :
  sid' <> sid ->
  Forall (generation_row sid exp) new ->
  List.filter (in_session sid')
              (List.filter (fun r => negb (in_session sid r)) old ++ new)
  = List.filter (in_session sid') old.
Proof.
  intros Hne Hnew. rewrite List.filter_app.
  assert (Hn : List.filter (in_session sid') new = []).
  { induction Hnew as [|r l [Hs _] _ IH]; [reflexivity |]. cbn [List.filter].
    unfold in_session at 1. rewrite Hs.
    destruct (String.eqb_spec sid sid'); [congruence | exact IH]. }
  rewrite Hn, app_nil_r.
  induction old as [|r l IH]; [reflexivity |]. cbn [List.filter].
  destruct (in_session sid r) eqn:Hr; cbn [negb List.filter].
  - destruct (in_session sid' r) eqn:Hr'; [| exact IH].
    unfold in_session in Hr, Hr'. apply String.eqb_eq in Hr, Hr'. congruence.
  - now rewrite IH.
Qed.

(** X2: a reload of one session, whether it completes or rejects, leaves
    the rows and the stored selection of every other session as they
    were. *)
Theorem loadSessionData_other_sessions (E : Env) (sid sid' : string) (ids : list string)
        (w : World) :
  sid' <> sid ->
  session_rows sid' (tables (snd (loadSessionData E sid ids w))) = session_rows sid' (tables w) /\
  stored_selection sid' (snd (loadSessionData E sid ids w)) = stored_selection sid' w.
Proof.
  intros Hne.
  destruct (loadSessionData_outcomes E sid ids w)
    as [(e & _ & ->) | (es & _ & Hrows & _ & _ & [(e & ->) | [(e & ->) | (r & ->)]])];
    cbn [snd]; unfold session_rows, stored_selection, after_rejected, after_upsert,
               after_inserts, after_delete;
    cbn [tables session_company_data user_display_selection];
    rewrite ?(session_rows_other _ _ _ _ _ Hne Hrows); auto.
  split; [reflexivity |]. apply lookup_insert_ne. congruence.
Qed.

Lemma loadSessionData_other_sessions_witness :
  "s2"%string <> "s1"%string /\
  session_rows "s2" (tables reloaded_world) = [stale_row "s2" "a"] /\
  stored_selection "s2" reloaded_world = None.
Proof.
  assert (Hne : "s2"%string <> "s1"%string) by discriminate.
  split; [exact Hne |].
  destruct (loadSessionData_other_sessions env_missing_c "s1" "s2" ["a"; "b"; "c"]%string
                                            used_world Hne) as [Hrows Hsel].
  split; [exact Hrows | exact Hsel].
Defined.

(** X3: a reload that rejects does not touch the stored selection; if its
    DELETE was the rejected statement the tables are as they were, and
    otherwise nothing is rolled back: the rows the session had are gone and
    it is left with the rows, of the new generation, that loaders had
    written, at most one for each identifier passed. *)
Theorem rejected_reload_keeps_selection (E : Env) (sid : string) (ids : list string)
        (w : World) (e : string) (w' : World) :
  loadSessionData E sid ids w = (Throw e, w') ->
  stored_selection sid w' = stored_selection sid w /\
  match query_fault E (length (log w)) with
  | Some e0 => e = e0 /\ tables w' = tables w
  | None =>
      Forall (generation_row sid (clock w + sessionTTL)) (session_rows sid (tables w')) /\
      (length (session_rows sid (tables w')) <= length ids)%nat /\
      exists missing,
        Permutation (map tenant_id (session_rows sid (tables w')) ++ missing) ids
  end.
Proof.
  intros H.
  destruct (loadSessionData_outcomes E sid ids w)
    as [(e0 & Hq & H0)
       | (es & Hq & Hrows & Hlen & Hten & [(e0 & H0) | [(e0 & H0) | (r & H0)]])];
    rewrite H0 in H; try discriminate; injection H as <- <-; rewrite Hq;
    unfold stored_selection, session_rows, after_rejected, after_inserts, after_delete;
    cbn [tables session_company_data user_display_selection];
    rewrite ?List.filter_app, ?session_rows_deleted, ?(session_rows_generation _ _ _ Hrows);
    auto.
Qed.

Lemma rejected_reload_keeps_selection_witness :
  loadSessionData env_third_statement_rejected "s1" ["c"]%string used_world
    = (Throw "deadlock detected",
       snd (loadSessionData env_third_statement_rejected "s1" ["c"]%string used_world)) /\
  stored_selection "s1"
    (snd (loadSessionData env_third_statement_rejected "s1" ["c"]%string used_world))
    = Some (mkSelectionRow ["a"; "z"]%string "detail" 500) /\
  session_rows "s1"
    (tables (snd (loadSessionData env_third_statement_rejected "s1" ["c"]%string used_world)))
    = [].
Proof.
  assert (H : loadSessionData env_third_statement_rejected "s1" ["c"]%string used_world
              = (Throw "deadlock detected",
                 snd (loadSessionData env_third_statement_rejected "s1" ["c"]%string
                                      used_world)))
    by (vm_compute; reflexivity).
  destruct (rejected_reload_keeps_selection _ _ _ _ _ _ H) as [Hsel _].
  split; [exact H |]. split; [rewrite Hsel; reflexivity | vm_compute; reflexivity].
Defined.

(* ===================================================================== *)
(** ** A loaded session, seen later                                       *)
(* ===================================================================== *)

(** What a completed reload leaves for the session. *)
Lemma loaded_session (E : Env) (sid : string) (ids : list string) (w : World)
      (r : SessionSummary) (w' : World) :
  loadSessionData E sid ids w = (Ok r, w') ->
  clock w' = clock w /\
  expiresAt r = clock w + sessionTTL /\
  stored_selection sid w' = Some (mkSelectionRow ids "overview" (clock w)) /\
  map tenant_id (session_rows sid (tables w')) = ids /\
  Forall (generation_row sid (clock w + sessionTTL)) (session_rows sid (tables w')).
Proof.
  intros H. destruct (loadSessionData_rows E sid ids w r w' H) as [Hids Hgen].
  apply loadSessionData_inv in H as (results & es & _ & _ & -> & ->).
  repeat split; try assumption.
  unfold stored_selection, after_upsert, after_inserts, after_delete.
  cbn [tables user_display_selection clock]. apply lookup_insert_eq.
Qed.

(** Rows of one generation are live together. *)
Lemma generation_live (sid : string) (exp now : Z) (f : CompanyRow -> bool)
      (rows : list CompanyRow) :
  Forall (generation_row sid exp) rows ->
  Forall (fun r => f r = true) rows ->
  List.filter (fun r => f r && (now <? expires_at r))%bool rows =
  if now <? exp then rows else [].
Proof.
  intros Hgen Hf. induction Hgen as [|r l Hg _ IH]; [now destruct (now <? exp) |].
  destruct Hg as (_ & He & _). pose proof (List.Forall_inv Hf) as Hr.
  pose proof (List.Forall_inv_tail Hf) as Hl. cbn beta in Hr. cbn [List.filter]. rewrite Hr, He, (IH Hl).
  cbn [andb]. now destruct (now <? exp).
Qed.

Lemma listed_tenants (rows : list CompanyRow) :
  Forall (fun r => any_of (map tenant_id rows) (tenant_id r) = true) rows.
Proof.
  apply List.Forall_forall. intros r Hr. unfold any_of. apply existsb_exists.
  exists (tenant_id r). split; [now apply in_map | apply String.eqb_refl].
Qed.

Lemma live_rows_loaded (E : Env) (sid : string) (ids : list string) (w : World)
      (r : SessionSummary) (w' : World) (dt : Z) :
  loadSessionData E sid ids w = (Ok r, w') ->
  live_rows sid ids (advance dt w') =
  if dt <? sessionTTL then session_rows sid (tables w') else [].
Proof.
  intros H. apply loaded_session in H as (Hc & _ & _ & Hids & Hgen).
  rewrite live_rows_of_session. cbn [advance clock tables].
  rewrite (generation_live sid (clock w + sessionTTL) (clock w' + dt)
                           (fun r => any_of ids (tenant_id r)) _ Hgen).
  - rewrite Hc. destruct (Z.ltb_spec dt sessionTTL), (Z.ltb_spec (clock w + dt) (clock w + sessionTTL));
      try reflexivity; lia.
  - rewrite <- Hids. apply listed_tenants.
Qed.

Lemma live_session_rows_loaded (E : Env) (sid : string) (ids : list string) (w : World)
      (r : SessionSummary) (w' : World) (dt : Z) :
  loadSessionData E sid ids w = (Ok r, w') ->
  live_session_rows sid (advance dt w') =
  if dt <? sessionTTL then session_rows sid (tables w') else [].
Proof.
  intros H. apply loaded_session in H as (Hc & _ & _ & _ & Hgen).
  unfold live_session_rows. cbn [advance clock tables].
  pose proof (generation_live sid (clock w + sessionTTL) (clock w' + dt) (fun _ => true)
                              _ Hgen) as Hl.
  cbn [andb] in Hl. rewrite Hl.
  - rewrite Hc. destruct (Z.ltb_spec dt sessionTTL), (Z.ltb_spec (clock w + dt) (clock w + sessionTTL));
      try reflexivity; lia.
  - apply List.Forall_forall. reflexivity.
Qed.

Lemma minimum_constant (x : Z) (l : list Z) :
  l <> [] -> Forall (eq x) l -> minimum l = Some x.
Proof.
  intros Hne Hall. pose proof (minimum_spec l) as Hm.
  destruct (minimum l) as [m|]; [| contradiction].
  destruct Hm as [Hin _]. rewrite List.Forall_forall in Hall. now rewrite (Hall m Hin).
Qed.

(** X4: when the store accepts the statements, a load followed by the
    freshness check gives, for the whole of the thirty minutes, as many
    companies as identifiers were passed (failed loads included) and the
    expiry the loader returned, and from the thirtieth minute on no data:
    the boundary instant itself is already expired.  The check leaves the
    tables as they were and its statement in the log. *)
Theorem loaded_session_valid_until_expiry (E : Env) (sid : string) (ids : list string)
        (w : World) :
  reliable E ->
  exists r w',
    loadSessionData E sid ids w = (Ok r, w') /\
    forall dt,
      let read :=
        mkWorld (clock w' + dt) (tables w') (log w' ++ [Executed (SelectValidity sid)]) in
      (dt < sessionTTL ->
       hasValidSessionData E sid (advance dt w') =
       (Ok {| hasData := negb (Nat.eqb (length ids) 0);
              companiesCount := Some (Z.of_nat (length ids));
              earliestExpiry := if Nat.eqb (length ids) 0 then None
                                else Some (expiresAt r) |},
        read)) /\
      (sessionTTL <= dt ->
       hasValidSessionData E sid (advance dt w') =
       (Ok {| hasData := false; companiesCount := Some 0; earliestExpiry := None |},
        read)).
Proof.
  intros Hrel. destruct (loadSessionData_completes E sid ids w Hrel) as [w' H].
  eexists _, w'. split; [exact H |]. intros dt. cbv zeta.
  pose proof (live_session_rows_loaded E sid ids w _ w' dt H) as Hlive.
  apply loaded_session in H as (_ & Hexp & _ & Hids & Hgen). cbn [expiresAt] in *.
  rewrite (hasValidSessionData_run E sid (advance dt w') (Hrel _)), Hlive.
  cbn [advance clock tables log].
  split; intros Hdt.
  - destruct (Z.ltb_spec dt sessionTTL); [| lia].
    rewrite <- Hids, !length_map.
    destruct (session_rows sid (tables w')) as [|row rows] eqn:Hrows; [reflexivity |].
    rewrite (minimum_constant (clock w + sessionTTL)).
    + cbn [length Nat.eqb negb]. reflexivity.
    + discriminate.
    + apply List.Forall_forall. intros x Hx. apply in_map_iff in Hx as (r0 & <- & Hr0).
      rewrite List.Forall_forall in Hgen. symmetry. apply (Hgen r0 Hr0).
  - destruct (Z.ltb_spec dt sessionTTL); [lia | reflexivity].
Qed.

Lemma loaded_session_valid_until_expiry_witness :
  reliable env_missing_c /\
  exists r w',
    loadSessionData env_missing_c "s1" ["a"; "b"; "c"]%string used_world = (Ok r, w') /\
    fst (hasValidSessionData env_missing_c "s1" (advance 1799999 w')) =
    Ok {| hasData := true; companiesCount := Some 3; earliestExpiry := Some 1801000 |} /\
    fst (hasValidSessionData env_missing_c "s1" (advance 1800000 w')) =
    Ok {| hasData := false; companiesCount := Some 0; earliestExpiry := None |} /\
    log (snd (hasValidSessionData env_missing_c "s1" (advance 1800000 w')))
    = log w' ++ [Executed (SelectValidity "s1")].
Proof.
  assert (Hrel : reliable env_missing_c) by (intros n; reflexivity).
  split; [exact Hrel |].
  destruct (loaded_session_valid_until_expiry env_missing_c "s1" ["a"; "b"; "c"]%string
                                              used_world Hrel) as (r & w' & H & Hdt).
  exists r, w'. split; [exact H |].
  destruct (Hdt 1799999) as [H1 _]. destruct (Hdt 1800000) as [_ H2].
  rewrite H1, H2 by (unfold sessionTTL; lia).
  assert (Hr : expiresAt r = 1801000).
  { assert (Hf : fst (loadSessionData env_missing_c "s1" ["a"; "b"; "c"]%string used_world)
                 = Ok r) by (rewrite H; reflexivity).
    vm_compute in Hf. injection Hf as <-. reflexivity. }
  rewrite Hr. repeat split.
Defined.

(** X5: a completed reload replaces the stored selection of the session,
    whatever it was, by all the identifiers passed and the view
    "overview", stamped with the time of the reload; it is what
    [getDisplaySelection] returns afterwards. *)
Theorem reload_resets_selection (E : Env) (sid : string) (ids : list string) (w : World)
        (r : SessionSummary) (w' : World) :
  loadSessionData E sid ids w = (Ok r, w') ->
  stored_selection sid w' = Some (mkSelectionRow ids "overview" (clock w)) /\
  forall dt,
    query_fault E (length (log w')) = None ->
    fst (getDisplaySelection E sid (advance dt w')) = Ok (mkSelection ids "overview").
Proof.
  intros H. apply loaded_session in H as (_ & _ & Hsel & _).
  split; [exact Hsel |]. intros dt Hq.
  rewrite getDisplaySelection_run. cbn [advance log]. rewrite Hq.
  unfold stored_selection in *. cbn [advance tables fst]. now rewrite Hsel.
Qed.

Lemma reload_resets_selection_witness :
  stored_selection "s1" used_world = Some (mkSelectionRow ["a"; "z"]%string "detail" 500) /\
  stored_selection "s1" reloaded_world
  = Some (mkSelectionRow ["a"; "b"; "c"]%string "overview" 1000) /\
  fst (getDisplaySelection env_missing_c "s1" (advance 60000 reloaded_world))
  = Ok (mkSelection ["a"; "b"; "c"]%string "overview").
Proof.
  split; [reflexivity |].
  assert (H : loadSessionData env_missing_c "s1" ["a"; "b"; "c"]%string used_world
              = (Ok (mkSessionSummary "s1" 3 2 1801000), reloaded_world))
    by (vm_compute; reflexivity).
  destruct (reload_resets_selection _ _ _ _ _ _ H) as [Hsel Hget].
  split; [exact Hsel | apply Hget; reflexivity].
Defined.

(** X6: when the store accepts the statements, a load followed by
    [getConsolidatedData] without an explicit selection answers "No
    companies selected" at any later time if no identifier was passed;
    otherwise, until the thirty minutes are over, the view over one row
    per identifier, and from then on "No session data found or session
    expired". *)
Theorem consolidation_until_expiry (E : Env) (sid : string) (ids : list string) (w : World) :
  reliable E ->
  exists r w',
    loadSessionData E sid ids w = (Ok r, w') /\
    forall dt,
      (ids = [] ->
       fst (getConsolidatedData E sid None (advance dt w'))
       = Ok (ConsolidatedError "No companies selected")) /\
      (ids <> [] -> dt < sessionTTL ->
       exists view,
         fst (getConsolidatedData E sid None (advance dt w')) = Ok (ConsolidatedOk view) /\
         summaryTotalCompanies (summary view) = length ids /\
         Permutation (map cv_tenantId (companies view)) ids) /\
      (ids <> [] -> sessionTTL <= dt ->
       fst (getConsolidatedData E sid None (advance dt w'))
       = Ok (ConsolidatedError "No session data found or session expired")).
Proof.
  intros Hrel. destruct (loadSessionData_completes E sid ids w Hrel) as [w' H].
  eexists _, w'. split; [exact H |]. intros dt.
  pose proof (live_rows_loaded E sid ids w _ w' dt H) as Hlive.
  apply loaded_session in H as (_ & _ & Hsel & Hids & _).
  rewrite getConsolidatedData_fst, (Hrel _).
  assert (Hres : resolved_selection sid None (advance dt w') = ids).
  { unfold resolved_selection, stored_selection in *. cbn [advance tables]. now rewrite Hsel. }
  rewrite Hres. unfold select_and_reduce. rewrite (Hrel _), Hlive.
  repeat split.
  - intros ->. reflexivity.
  - intros Hne Hdt. destruct ids as [|i ids']; [contradiction |]. cbn [length Nat.eqb].
    destruct (Z.ltb_spec dt sessionTTL); [| lia].
    assert (Hlen : length (session_rows sid (tables w')) = length (i :: ids'))
      by (rewrite <- Hids; symmetry; apply length_map).
    unfold consolidated_of.
    destruct (Nat.eqb_spec (length (session_rows sid (tables w'))) 0) as [Hz|_];
      [rewrite Hz in Hlen; discriminate |].
    eexists. split; [reflexivity |].
    cbn [summary consolidate summaryTotalCompanies companies].
    split; [exact Hlen |].
    rewrite map_map. cbn [company_view cv_tenantId].
    change (map (fun x => tenant_id x) (session_rows sid (tables w')))
      with (map tenant_id (session_rows sid (tables w'))).
    rewrite Hids. reflexivity.
  - intros Hne Hdt. destruct ids as [|i ids']; [contradiction |]. cbn [length Nat.eqb].
    destruct (Z.ltb_spec dt sessionTTL); [lia | reflexivity].
Qed.

Lemma consolidation_until_expiry_witness :
  reliable env_missing_c /\
  exists r w',
    loadSessionData env_missing_c "s1" ["a"; "b"; "c"]%string used_world = (Ok r, w') /\
    (exists view,
        fst (getConsolidatedData env_missing_c "s1" None (advance 1799999 w'))
        = Ok (ConsolidatedOk view) /\
        summaryTotalCompanies (summary view) = 3%nat) /\
    fst (getConsolidatedData env_missing_c "s1" None (advance 1800000 w'))
    = Ok (ConsolidatedError "No session data found or session expired").
Proof.
  assert (Hrel : reliable env_missing_c) by (intros n; reflexivity).
  split; [exact Hrel |].
  destruct (consolidation_until_expiry env_missing_c "s1" ["a"; "b"; "c"]%string
                                       used_world Hrel) as (r & w' & H & Hdt).
  exists r, w'. split; [exact H |].
  destruct (Hdt 1799999) as (_ & H1 & _). destruct (Hdt 1800000) as (_ & _ & H2).
  split.
  - destruct H1 as (view & Hv & Hn & _); [discriminate | unfold sessionTTL; lia |].
    exists view. split; [exact Hv | exact Hn].
  - apply H2; [discriminate | unfold sessionTTL; lia].
Defined.

(* ===================================================================== *)
(** ** More on the Consolidator                                           *)
(* ===================================================================== *)

(** The rows a view is built from. *)
Lemma getConsolidatedData_view (E : Env) (sid : string) (sel : option (list string))
      (w : World) (view : ConsolidatedView) :
  fst (getConsolidatedData E sid sel w) = Ok (ConsolidatedOk view) ->
  view = consolidate (live_rows sid (resolved_selection sid sel w) w) /\
  live_rows sid (resolved_selection sid sel w) w <> [].
Proof.
  rewrite getConsolidatedData_fst. intros H.
  assert (Hs : exists k, select_and_reduce E k sid (resolved_selection sid sel w) w
                         = Ok (ConsolidatedOk view)).
  { destruct sel as [ids|]; [eexists; exact H |].
    destruct (query_fault E (length (log w))); [discriminate | eexists; exact H]. }
  destruct Hs as [k Hk]. unfold select_and_reduce, consolidated_of in Hk.
  destruct (Nat.eqb (length (resolved_selection sid sel w)) 0); [discriminate |].
  destruct (query_fault E k); [discriminate |].
  destruct (Nat.eqb_spec (length (live_rows sid (resolved_selection sid sel w) w)) 0)
    as [|Hn]; [discriminate |].
  split; [congruence |]. intros Hnil. now rewrite Hnil in Hn.
Qed.

Lemma live_rows_spec (sid : string) (ids : list string) (w : World) (r : CompanyRow) :
  In r (live_rows sid ids w) <->
  In r (session_company_data (tables w)) /\ session_id r = sid /\
  In (tenant_id r) ids /\ clock w < expires_at r.
Proof.
  unfold live_rows, live_selected, in_session, any_of. rewrite filter_In, !andb_true_iff.
  rewrite String.eqb_eq, Z.ltb_lt, existsb_exists. split.
  - intros (Hin & (Hs & t & Ht & Heq) & He). apply String.eqb_eq in Heq. subst t. auto.
  - intros (Hin & Hs & Ht & He). repeat split; auto.
    exists (tenant_id r). split; [exact Ht | apply String.eqb_refl].
Qed.

(** X7: whatever the environment does, a view returned by
    [getConsolidatedData] lists exactly the stored rows that belong to
    the session, are named by the selection in force (the one passed, or
    else the stored one) and have not expired; it never shows a row of
    another session, an unselected company or an expired row, and a
    selected identifier without a live row is left out without an error. *)
Theorem getConsolidatedData_lists_live_selected (E : Env) (sid : string)
        (sel : option (list string)) (w : World) (view : ConsolidatedView) :
  fst (getConsolidatedData E sid sel w) = Ok (ConsolidatedOk view) ->
  companies view <> [] /\
  (summaryTotalCompanies (summary view) <= length (session_rows sid (tables w)))%nat /\
  forall c,
    In c (companies view) <->
    exists row,
      c = company_view row /\
      In row (session_company_data (tables w)) /\ session_id row = sid /\
      In (tenant_id row) (resolved_selection sid sel w) /\ clock w < expires_at row.
Proof.
  intros H. apply getConsolidatedData_view in H as [-> Hne].
  cbn [companies consolidate summary summaryTotalCompanies]. split; [| split].
  - intros Hnil. apply map_eq_nil in Hnil. contradiction.
  - rewrite live_rows_of_session. apply filter_length_le.
  - intros c. rewrite in_map_iff. split.
    + intros (row & <- & Hrow). exists row. split; [reflexivity |]. now apply live_rows_spec.
    + intros (row & -> & Hrow). exists row. split; [reflexivity |]. now apply live_rows_spec.
Qed.

Lemma getConsolidatedData_lists_live_selected_witness :
  fst (getConsolidatedData env_missing_c "s1" (Some ["a"; "unknown"]%string) used_world)
  = Ok (ConsolidatedOk (consolidate [stale_row "s1" "a"])) /\
  companies (consolidate [stale_row "s1" "a"]) <> [] /\
  (summaryTotalCompanies (summary (consolidate [stale_row "s1" "a"]))
   <= length (session_rows "s1" (tables used_world)))%nat.
Proof.
  assert (H : fst (getConsolidatedData env_missing_c "s1" (Some ["a"; "unknown"]%string)
                                       used_world)
              = Ok (ConsolidatedOk (consolidate [stale_row "s1" "a"])))
    by (vm_compute; reflexivity).
  split; [exact H |].
  destruct (getConsolidatedData_lists_live_selected _ _ _ _ _ H) as (Hne & Hle & _).
  split; [exact Hne | exact Hle].
Defined.

Lemma any_of_same (ids1 ids2 : list string) (t : string) :
  (forall x, In x ids1 <-> In x ids2) -> any_of ids1 t = any_of ids2 t.
Proof.
  intros Hsame. unfold any_of. apply eq_true_iff_eq. rewrite !existsb_exists.
  split; intros (x & Hx & Heq); exists x; (split; [now apply Hsame | exact Heq]).
Qed.

(** X8: an explicit selection is used as a set: two selections with the
    same members, in any order and with any repetitions, get the same
    answer from [getConsolidatedData], rows in the order of the store. *)
Theorem getConsolidatedData_selection_as_set (E : Env) (sid : string)
        (ids1 ids2 : list string) (w : World) :
  (forall t, In t ids1 <-> In t ids2) ->
  fst (getConsolidatedData E sid (Some ids1) w) =
  fst (getConsolidatedData E sid (Some ids2) w).
Proof.
  intros Hsame. rewrite !getConsolidatedData_fst. unfold select_and_reduce.
  assert (Hlen : Nat.eqb (length ids1) 0 = Nat.eqb (length ids2) 0).
  { destruct ids1 as [|a l1], ids2 as [|b l2]; try reflexivity.
    - destruct (proj2 (Hsame b)); now left.
    - destruct (proj1 (Hsame a)); now left. }
  rewrite Hlen. destruct (Nat.eqb (length ids2) 0); [reflexivity |].
  destruct (query_fault E (length (log w))); [reflexivity |].
  rewrite !live_rows_of_session. do 2 f_equal.
  apply List.filter_ext. intros r. now rewrite (any_of_same ids1 ids2).
Qed.

Lemma getConsolidatedData_selection_as_set_witness :
  fst (getConsolidatedData env_missing_c "s1" (Some ["a"; "z"]%string) used_world) =
  fst (getConsolidatedData env_missing_c "s1" (Some ["z"; "a"; "z"]%string) used_world).
Proof.
  apply getConsolidatedData_selection_as_set. intros t. cbn [In]. tauto.
Defined.

(** X9: when the store serves its reads, the freshness check says
    [hasData] exactly when some explicit selection makes
    [getConsolidatedData] return a view. *)
Theorem hasData_iff_some_view (E : Env) (sid : string) (w : World) :
  reliable E ->
  exists v,
    fst (hasValidSessionData E sid w) = Ok v /\
    (hasData v = true <->
     exists ids view,
       fst (getConsolidatedData E sid (Some ids) w) = Ok (ConsolidatedOk view)).
Proof.
  intros Hrel. rewrite (hasValidSessionData_run E sid w (Hrel _)).
  eexists. split; [reflexivity |]. cbn [hasData]. rewrite Z.ltb_lt. split.
  - intros Hpos. exists (map tenant_id (live_session_rows sid w)).
    rewrite getConsolidatedData_fst. unfold select_and_reduce, consolidated_of.
    rewrite (Hrel _), length_map.
    assert (Hsame : live_rows sid (map tenant_id (live_session_rows sid w)) w
                    = live_session_rows sid w).
    { rewrite live_rows_of_session. unfold live_session_rows.
      apply List.filter_ext_in. intros r Hr.
      destruct (clock w <? expires_at r) eqn:He; [| apply andb_false_r].
      rewrite andb_true_r. unfold any_of. apply existsb_exists.
      exists (tenant_id r). split; [| apply String.eqb_refl].
      apply in_map, filter_In. auto. }
    rewrite Hsame.
    destruct (Nat.eqb_spec (length (live_session_rows sid w)) 0); [lia |]. eauto.
  - intros (ids & view & H). apply getConsolidatedData_view in H as [_ Hne].
    destruct (live_rows sid (resolved_selection sid (Some ids) w) w) as [|r l] eqn:Hl;
      [contradiction |].
    assert (Hr : In r (live_session_rows sid w)).
    { assert (Hin : In r (live_rows sid (resolved_selection sid (Some ids) w) w))
        by (rewrite Hl; now left).
      apply live_rows_spec in Hin as (Hin & Hs & _ & He).
      unfold live_session_rows, session_rows. rewrite !filter_In. unfold in_session.
      rewrite Hs, String.eqb_refl. repeat split; auto. now apply Z.ltb_lt. }
    destruct (live_session_rows sid w); [contradiction | cbn [length]; lia].
Qed.

Lemma hasData_iff_some_view_witness :
  reliable env_missing_c /\
  exists v,
    fst (hasValidSessionData env_missing_c "s1" used_world) = Ok v /\
    hasData v = true /\
    exists ids view,
      fst (getConsolidatedData env_missing_c "s1" (Some ids) used_world)
      = Ok (ConsolidatedOk view).
Proof.
  assert (Hrel : reliable env_missing_c) by (intros n; reflexivity).
  split; [exact Hrel |].
  destruct (hasData_iff_some_view env_missing_c "s1" used_world Hrel) as (v & Hv & Hiff).
  exists v. split; [exact Hv |].
  assert (Hd : hasData v = true).
  { apply Hiff. exists ["a"]%string. eexists. vm_compute. reflexivity. }
  split; [exact Hd | apply Hiff; exact Hd].
Defined.

(** X10: whatever the environment does, the three reading methods leave
    the tables and the clock as they were: [getConsolidatedData] and
    [getDisplaySelection] only extend the statement log, and an empty
    selection is answered without any statement. *)
Theorem readers_do_not_write (E : Env) (sid : string) (sel : option (list string))
        (w : World) :
  tables (snd (getConsolidatedData E sid sel w)) = tables w /\
  tables (snd (getDisplaySelection E sid w)) = tables w /\
  tables (snd (hasValidSessionData E sid w)) = tables w /\
  snd (getConsolidatedData E sid (Some []) w) = w.
Proof.
  destruct (getConsolidatedData_reads E sid sel w) as [es ->].
  rewrite getDisplaySelection_run.
  destruct (query_fault E (length (log w))) as [e|] eqn:Hq.
  - rewrite (hasValidSessionData_rejected E sid w e Hq). cbn. auto.
  - rewrite (hasValidSessionData_run E sid w Hq). cbn. auto.
Qed.

(* ===================================================================== *)
(** ** More on the two reductions                                         *)
(* ===================================================================== *)

Lemma cash_label_cases (cs : list jsval) :
  (truthy (cash_label cs) = true /\ cash_label cs = cell_value cs 0) \/
  cash_label cs = JStr "".
Proof.
  unfold cash_label, or_else. destruct (truthy (cell_value cs 0)) eqn:H; auto.
Qed.

(** The inner loop throws on the first leaf whose label is truthy and is
    not text, and only then. *)
Lemma cash_rows_outcome (rs : list ReportRow) (total : float) :
  match forEach_acc cash_row_step rs total with
  | Ok _ => Forall (fun cs => label_is_text cs = true) (leaf_cells rs)
  | Throw e =>
      e = "accountName.toLowerCase is not a function"%string /\
      Exists (fun cs => label_is_text cs = false) (leaf_cells rs)
  end.
Proof.
  revert total; induction rs as [|r rs IH]; intros total; [constructor |].
  rewrite leaf_cells_cons. cbn [forEach_acc]. unfold cash_row_step at 1.
  destruct (cells r) as [cs|]; [| apply IH].
  destruct (String.eqb (rowType r) "Row" && Nat.leb 5 (length cs))%bool; [| apply IH].
  fold (cash_label cs). cbn [app].
  pose proof (eq_refl : label_is_text cs
                        = match cash_label cs with JStr _ => true | _ => false end) as Hl.
  destruct (cash_label_cases cs) as [[Ht _]|He].
  - rewrite Ht.
    destruct (cash_label cs) as [| |b|f|name];
      cbn beta iota; try (split; [reflexivity | apply Exists_cons_hd; exact Hl]).
    destruct (negb (includes (toLowerCase name) "total")); cbn beta iota;
      match goal with
      | |- context [forEach_acc cash_row_step rs ?t] =>
          specialize (IH t); destruct (forEach_acc cash_row_step rs t)
      end;
      try (constructor; [exact Hl | exact IH]);
      (split; [apply IH | apply Exists_cons_tl, IH]).
  - rewrite He in *. cbn [truthy String.eqb negb]. cbn beta iota.
    specialize (IH total). destruct (forEach_acc cash_row_step rs total).
    + constructor; [exact Hl | exact IH].
    + split; [apply IH | apply Exists_cons_tl, IH].
Qed.

Lemma cash_sections_outcome (report : list ReportRow) (total : float) :
  match forEach_acc cash_section_step report total with
  | Ok _ => Forall (fun cs => label_is_text cs = true) (cash_leaves report)
  | Throw e =>
      e = "accountName.toLowerCase is not a function"%string /\
      Exists (fun cs => label_is_text cs = false) (cash_leaves report)
  end.
Proof.
  unfold cash_leaves.
  revert total; induction report as [|s report IH]; intros total; [constructor |].
  rewrite section_children_cons, leaf_cells_app. cbn [forEach_acc].
  unfold cash_section_step at 1.
  destruct (rows s) as [rs|]; [| apply IH].
  destruct (String.eqb (rowType s) "Section"); [| apply IH].
  pose proof (cash_rows_outcome rs total) as Hrs.
  destruct (forEach_acc cash_row_step rs total) as [t|e].
  - specialize (IH t). destruct (forEach_acc cash_section_step report t).
    + apply List.Forall_app. split; assumption.
    + split; [apply IH |]. apply List.Exists_app. right. apply IH.
  - split; [apply Hrs |]. apply List.Exists_app. left. apply Hrs.
Qed.

Lemma text_or_not (l : list (list jsval)) :
  Forall (fun cs => label_is_text cs = true) l ->
  Exists (fun cs => label_is_text cs = false) l -> False.
Proof.
  intros Hall Hex. apply List.Exists_exists in Hex as (cs & Hin & Hcs).
  rewrite List.Forall_forall in Hall. specialize (Hall cs Hin). congruence.
Qed.

(** X11: once the bank summary has arrived, [loadCashPosition] rejects
    exactly when some leaf Row of a section has a label that is truthy and
    is not text (a number, [true]), with the TypeError of [toLowerCase];
    otherwise it returns a total.  It leaves the world as it was. *)
Theorem loadCashPosition_rejects_iff (E : Env) (tid : string) (w : World)
        (response : Response) (report : list ReportRow) :
  getReportBankSummary E tid = Ok response ->
  report_rows_of response = Ok report ->
  (Exists (fun cs => label_is_text cs = false) (cash_leaves report) <->
   loadCashPosition E tid w = (Throw "accountName.toLowerCase is not a function", w)) /\
  (Forall (fun cs => label_is_text cs = true) (cash_leaves report) <->
   exists cash, loadCashPosition E tid w = (Ok cash, w)).
Proof.
  intros Hget Hrows. rewrite (loadCashPosition_returns E tid w response report Hget Hrows).
  unfold reduceCashPosition. pose proof (cash_sections_outcome report 0%float) as H.
  destruct (forEach_acc cash_section_step report 0%float) as [t|e].
  - split; split.
    + intros Hex. destruct (text_or_not _ H Hex).
    + discriminate.
    + eauto.
    + intros _. exact H.
  - destruct H as [-> Hex]. split; split.
    + reflexivity.
    + intros _. exact Hex.
    + intros Hall. destruct (text_or_not _ Hall Hex).
    + intros [c Hc]. discriminate.
Qed.

Lemma loadCashPosition_rejects_iff_witness :
  loadCashPosition env_numbered_account "a" used_world
  = (Throw "accountName.toLowerCase is not a function", used_world) /\
  (exists res w',
      loadSingleCompanyData env_numbered_account "s1" "a" 9000 used_world = (Ok res, w') /\
      success res = true /\
      option_map total_cash (data res) = Some (JNum 0) /\
      option_map has_data (data res) = Some (Some true)).
Proof.
  split.
  - apply (loadCashPosition_rejects_iff env_numbered_account "a" used_world
                                         (response_of bank_summary_numbered)
                                         bank_summary_numbered eq_refl eq_refl).
    apply Exists_cons_hd. reflexivity.
  - eexists _, _. split; [vm_compute; reflexivity |]. repeat split.
Defined.

Lemma fold_left_visited {A B} (step : A -> B -> A) (p : B -> bool) (f : B -> B)
      (l : list B) (acc : A) :
  (forall acc x, p x = false -> step acc x = acc) ->
  (forall acc x, p x = true -> step acc (f x) = step acc x) ->
  fold_left step (map f (List.filter p l)) acc = fold_left step l acc.
Proof.
  intros Hskip Hsame. revert acc; induction l as [|x l IH]; intros acc; [reflexivity |].
  cbn [List.filter fold_left]. destruct (p x) eqn:Hp.
  - cbn [map fold_left]. now rewrite Hsame, IH.
  - now rewrite Hskip, IH.
Qed.

Lemma forEach_acc_visited {A B} (step : A -> B -> Result A) (p : B -> bool) (f : B -> B)
      (l : list B) (acc : A) :
  (forall acc x, p x = false -> step acc x = Ok acc) ->
  (forall acc x, p x = true -> step acc (f x) = step acc x) ->
  forEach_acc step (map f (List.filter p l)) acc = forEach_acc step l acc.
Proof.
  intros Hskip Hsame. revert acc; induction l as [|x l IH]; intros acc; [reflexivity |].
  cbn [List.filter forEach_acc]. destruct (p x) eqn:Hp.
  - cbn [map forEach_acc]. rewrite Hsame by exact Hp. destruct (step acc x); auto.
  - now rewrite Hskip, IH.
Qed.

Lemma balance_row_step_skips (t : string) (acc : BalanceAcc) (r : ReportRow) :
  has_rowType "Row" r = false -> balance_row_step t acc r = acc.
Proof.
  unfold has_rowType, balance_row_step. intros ->. now destruct (cells r).
Qed.

Lemma cash_row_step_skips (total : float) (r : ReportRow) :
  has_rowType "Row" r = false -> cash_row_step total r = Ok total.
Proof.
  unfold has_rowType, cash_row_step. intros ->. now destruct (cells r).
Qed.

(** X12: both reductions read a report only through its top-level rows of
    type "Section" and, in them, the nested rows of type "Row": headers,
    summary rows, nested sections and top-level Rows contribute nothing,
    whatever their cells hold. *)
Theorem reductions_visit_section_rows (report : list ReportRow) :
  reduceTrialBalance (visited_rows report) = reduceTrialBalance report /\
  reduceCashPosition (visited_rows report) = reduceCashPosition report.
Proof.
  unfold reduceTrialBalance, reduceCashPosition, visited_rows. split.
  - rewrite fold_left_visited; [reflexivity | |].
    + intros acc s Hs. unfold has_rowType in Hs. unfold balance_section_step.
      rewrite Hs. now destruct (rows s), (title s).
    + intros acc s _. unfold balance_section_step. cbn [rows title rowType].
      destruct (rows s) as [rs|], (title s) as [t|]; cbn [option_map]; try reflexivity.
      destruct (String.eqb (rowType s) "Section" && negb (String.eqb t ""))%bool;
        [| reflexivity].
      rewrite <- (map_id (List.filter (has_rowType "Row") rs)).
      apply fold_left_visited; [apply balance_row_step_skips | reflexivity].
  - rewrite forEach_acc_visited; [reflexivity | |].
    + intros acc s Hs. unfold has_rowType in Hs. unfold cash_section_step.
      rewrite Hs. now destruct (rows s).
    + intros acc s _. unfold cash_section_step. cbn [rows rowType].
      destruct (rows s) as [rs|]; cbn [option_map]; [| reflexivity].
      destruct (String.eqb (rowType s) "Section"); [| reflexivity].
      rewrite <- (map_id (List.filter (has_rowType "Row") rs)).
      apply forEach_acc_visited; [apply cash_row_step_skips | reflexivity].
Qed.

(** The layout of the accounting API: the summary rows, the nested section
    and the rows outside the sections are not counted. *)
Example balance_sheet_with_summaries_totals :
  reduceTrialBalance balance_sheet_with_summaries = mkTrialBalanceTotals 100 60 40 true.
Proof.
  vm_compute. reflexivity.
Qed.

(* ===================================================================== *)
(** ** What the loaders write                                             *)
(* ===================================================================== *)

Lemma is_nan_zero_leb_abs (x : float) :
  is_nan x = false -> (0 <=? Math_abs x)%float = true.
Proof.
  unfold is_nan, Math_abs. rewrite FloatAxioms.eqb_spec, FloatAxioms.leb_spec, FloatAxioms.abs_spec.
  change (Prim2SF 0) with (S754_zero false).
  destruct (Prim2SF x) as [s|s| |s m e]; try reflexivity. discriminate.
Qed.




Lemma loader_trace_entries (E : Env) (sid tid : string) (exp now : Z) (n : nat) :
  Forall (fun entry => writes_for_session sid (statement_of entry) = true)
         (snd (loader_trace E sid tid exp now n)) /\
  (1 <= length (snd (loader_trace E sid tid exp now n)) <= 2)%nat /\
  (reliable E -> length (snd (loader_trace E sid tid exp now n)) = 1%nat).
Proof.
  unfold loader_trace.
  destruct (credential_phase E tid) as [tok|msg].
  - destruct (query_fault E n) as [e|] eqn:Hn.
    + destruct (query_fault E (S n)); cbn [snd app length];
        (split; [repeat constructor; cbn; apply String.eqb_refl |]);
        (split; [lia | intros Hrel; rewrite Hrel in Hn; discriminate]).
    + cbn [snd length]. split; [repeat constructor; cbn; apply String.eqb_refl |].
      split; [lia | reflexivity].
  - destruct (query_fault E n); cbn [snd app length];
      (split; [repeat constructor; cbn; apply String.eqb_refl |]);
      (split; [lia | reflexivity]).
Qed.

Lemma loaders_trace_entries (E : Env) (sid : string) (exp now : Z) (ids : list string)
      (n : nat) :
  Forall (fun entry => writes_for_session sid (statement_of entry) = true)
         (snd (loaders_trace E sid exp now n ids)) /\
  (length ids <= length (snd (loaders_trace E sid exp now n ids)) <= 2 * length ids)%nat /\
  (reliable E -> length (snd (loaders_trace E sid exp now n ids)) = length ids).
Proof.
  revert n; induction ids as [|tid ids IH]; intros n; cbn [loaders_trace].
  - cbn. split; [constructor | split; [lia | reflexivity]].
  - pose proof (loader_trace_entries E sid tid exp now n) as (H1 & H2 & H3).
    destruct (loader_trace E sid tid exp now n) as [r es]. cbn [snd] in *.
    specialize (IH (n + length es)%nat). destruct IH as (I1 & I2 & I3).
    destruct (loaders_trace E sid exp now (n + length es) ids) as [rs es'].
    cbn [snd] in *. rewrite length_app. cbn [length]. split; [| split].
    + apply List.Forall_app. split; assumption.
    + lia.
    + intros Hrel. rewrite (H3 Hrel), (I3 Hrel). reflexivity.
Qed.

(** X14: under any environment, the statements a reload sends are a
    DELETE, INSERTs and an upsert written for its own session, never a
    SELECT and never a statement for another session; there is at least
    one and at most two per identifier plus two, at least one per
    identifier plus two when the reload completes, and exactly that many
    when the store accepts every statement. *)
Theorem loadSessionData_statements (E : Env) (sid : string) (ids : list string) (w : World) :
  exists entries,
    log (snd (loadSessionData E sid ids w)) = log w ++ entries /\
    Forall (fun entry => writes_for_session sid (statement_of entry) = true) entries /\
    (1 <= length entries <= 2 * length ids + 2)%nat /\
    (is_ok (fst (loadSessionData E sid ids w)) = true ->
     (length ids + 2 <= length entries)%nat) /\
    (reliable E -> length entries = (length ids + 2)%nat).
Proof.
  rewrite loadSessionData_run. cbv zeta.
  destruct (query_fault E (length (log w))) as [e|] eqn:Hq.
  - exists [Rejected (DeleteSessionRows sid) e]. cbn [snd fst is_ok after_rejected log length].
    split; [reflexivity |]. split; [repeat constructor; cbn; apply String.eqb_refl |].
    split; [lia |]. split; [discriminate |]. intros Hrel. rewrite Hrel in Hq. discriminate.
  - pose proof (loaders_trace_entries E sid (clock w + sessionTTL) (clock w) ids
                                      (S (length (log w)))) as (H1 & H2 & H3).
    destruct (loaders_trace E sid (clock w + sessionTTL) (clock w) (S (length (log w))) ids)
      as [[results|e] es] eqn:Htrace; cbn [fst snd] in *.
    + destruct (query_fault E (S (length (log w)) + length es)) as [e|] eqn:Hu.
      * exists (Executed (DeleteSessionRows sid) :: es
                ++ [Rejected (UpsertSelection sid ids "overview") e]).
        cbn [snd fst is_ok after_rejected after_inserts after_delete log].
        split; [now rewrite <- !app_assoc |]. split.
        { constructor; [cbn; apply String.eqb_refl |]. apply List.Forall_app.
          split; [exact H1 |]. repeat constructor. cbn. apply String.eqb_refl. }
        cbn [length]. rewrite length_app. cbn [length].
        split; [lia |]. split; [discriminate |].
        intros Hrel. rewrite Hrel in Hu. discriminate.
      * exists (Executed (DeleteSessionRows sid) :: es
                ++ [Executed (UpsertSelection sid ids "overview")]).
        cbn [snd fst is_ok after_upsert after_inserts after_delete log].
        split; [now rewrite <- !app_assoc |]. split.
        { constructor; [cbn; apply String.eqb_refl |]. apply List.Forall_app.
          split; [exact H1 |]. repeat constructor. cbn. apply String.eqb_refl. }
        cbn [length]. rewrite length_app. cbn [length].
        split; [lia |]. split; [lia |]. intros Hrel. rewrite (H3 Hrel). lia.
    + exists (Executed (DeleteSessionRows sid) :: es).
      cbn [snd fst is_ok after_inserts after_delete log].
      split; [now rewrite <- !app_assoc |]. split.
      { constructor; [cbn; apply String.eqb_refl | exact H1]. }
      cbn [length]. split; [lia |]. split; [discriminate |].
      intros Hrel.
      destruct (loaders_trace_reliable E sid (clock w + sessionTTL) (clock w) ids Hrel
                                       (S (length (log w)))) as (rs & es' & Ht & _).
      rewrite Htrace in Ht. discriminate.
Qed.

(* ===================================================================== *)
(** ** From the loaders to the view                                       *)
(* ===================================================================== *)

Lemma loader_trace_loaded_row (E : Env) (sid tid : string) (exp now : Z) (n : nat) :
  reliable E ->
  inserted_rows (column_defaults E) (snd (loader_trace E sid tid exp now n))
  = [loaded_row E sid exp now tid].
Proof.
  intros Hrel. unfold loader_trace, loaded_row.
  destruct (credential_phase E tid); rewrite (Hrel n); reflexivity.
Qed.

Lemma loaders_trace_loaded_rows (E : Env) (sid : string) (exp now : Z) (ids : list string)
      (n : nat) :
  reliable E ->
  inserted_rows (column_defaults E) (snd (loaders_trace E sid exp now n ids))
  = map (loaded_row E sid exp now) ids.
Proof.
  intros Hrel. revert n; induction ids as [|tid ids IH]; intros n; [reflexivity |].
  cbn [loaders_trace map].
  pose proof (loader_trace_loaded_row E sid tid exp now n Hrel) as Hrow.
  destruct (loader_trace E sid tid exp now n) as [r es].
  specialize (IH (n + length es)%nat).
  destruct (loaders_trace E sid exp now (n + length es) ids) as [rs es'].
  cbn [snd] in *. now rewrite inserted_rows_app, Hrow, IH.
Qed.

Lemma is_zero_abs (x : float) : is_zero (Math_abs x) = is_zero x.
Proof.
  unfold is_zero, Math_abs. rewrite !FloatAxioms.eqb_spec, FloatAxioms.abs_spec.
  change (Prim2SF zero) with (S754_zero false).
  destruct (Prim2SF x) as [s|s| |s m e]; try destruct s; reflexivity.
Qed.

Lemma is_nan_abs (x : float) : is_nan x = false -> is_nan (Math_abs x) = false.
Proof.
  intros H. pose proof (is_nan_zero_leb_abs x H) as Hle.
  unfold is_nan. rewrite FloatAxioms.leb_spec in Hle. rewrite FloatAxioms.eqb_spec.
  change (Prim2SF 0) with (S754_zero false) in Hle.
  destruct (Prim2SF (Math_abs x)) as [s|s| |s m e]; try destruct s; try reflexivity;
    try discriminate.
  unfold SFeqb, SFcompare. now rewrite Z.compare_refl, Pos.compare_cont_refl.
Qed.

(** Reading back a number the loader stored gives that number. *)
Lemma number_or_zero_stored {A} (o : option A) (field : A -> float) :
  number_or_zero (JNum (field_or_zero o field)) = field_or_zero o field /\
  number_or_zero (JNum (Math_abs (field_or_zero o field))) = Math_abs (field_or_zero o field).
Proof.
  unfold field_or_zero. destruct o as [a|]; [| split; reflexivity].
  destruct (truthy (JNum (field a))) eqn:Ht; [| split; reflexivity].
  pose proof Ht as Hx. cbn [truthy] in Hx. apply negb_true_iff, orb_false_iff in Hx.
  destruct Hx as [Hz Hn]. unfold number_or_zero, or_else. split.
  - rewrite Ht. cbn [parseFloat]. now rewrite Hz.
  - assert (Hta : truthy (JNum (Math_abs (field a))) = true).
    { cbn [truthy]. now rewrite is_zero_abs, Hz, (is_nan_abs _ Hn). }
    rewrite Hta. cbn [parseFloat]. now rewrite is_zero_abs, Hz.
Qed.

(** X15: when the store accepts the statements, a load followed, before
    the thirty minutes are over, by [getConsolidatedData] without a
    selection shows one company per identifier, in whatever order the
    loaders wrote their rows: a company whose credential phase passed with
    its token's name, the totals its two fetches reduced to (0 for a fetch
    that failed or a total that is 0 or NaN, the liabilities by absolute
    value) and no error; a company whose credential phase failed as in
    the error row, with that failure's message. *)
Theorem view_of_loaded_session (E : Env) (sid : string) (ids : list string) (w : World)
        (dt : Z) :
  reliable E -> ids <> [] -> dt < sessionTTL ->
  exists r w' view,
    loadSessionData E sid ids w = (Ok r, w') /\
    fst (getConsolidatedData E sid None (advance dt w')) = Ok (ConsolidatedOk view) /\
    Permutation
      (companies view)
      (map (fun tid =>
           match credential_phase E tid with
           | Ok tokenData =>
               let balance := fetched_balance E tid (clock w) in
               {| cv_tenantId := tid;
                  cv_tenantName := tenantName tokenData;
                  cv_totalAssets := field_or_zero balance totalAssets;
                  cv_totalLiabilities := Math_abs (field_or_zero balance totalLiabilities);
                  cv_totalEquity := field_or_zero balance totalEquity;
                  cv_totalCash := field_or_zero (fetched_cash E tid) totalCash;
                  cv_isBalanced :=
                    Some match balance with Some tb => isBalanced tb | None => false end;
                  cv_hasData :=
                    Some match balance, fetched_cash E tid with
                         | None, None => false
                         | _, _ => true
                         end;
                  cv_error := None |}
           | Throw message =>
               company_view (error_row (column_defaults E) sid tid "Unknown Company" false
                                       message (clock w + sessionTTL))
           end) ids).
Proof.
  intros Hrel Hne Hdt.
  destruct (loadSessionData_completes E sid ids w Hrel) as [w' H].
  eexists _, w', (consolidate (session_rows sid (tables w'))). split; [exact H |].
  pose proof (live_rows_loaded E sid ids w _ w' dt H) as Hlive.
  pose proof (loaded_session E sid ids w _ w' H) as (_ & _ & Hsel & Hids & _).
  apply loadSessionData_inv in H as (results & es & _ & Htrace & _ & Hw').
  pose proof (loaders_trace_loaded_rows E sid (clock w + sessionTTL) (clock w) ids
                                        (S (length (log w))) Hrel) as Hrows.
  rewrite Htrace in Hrows. cbn [snd] in Hrows.
  assert (Hgen : Forall (generation_row sid (clock w + sessionTTL))
                        (inserted_rows (column_defaults E) es)).
  { pose proof (loaders_trace_rows E sid (clock w + sessionTTL) (clock w) ids
                                   (S (length (log w)))) as [Hg _].
    now rewrite Htrace in Hg. }
  assert (Hsess : session_rows sid (tables w')
                  = map (loaded_row E sid (clock w + sessionTTL) (clock w)) ids).
  { rewrite Hw', (session_rows_after_reload _ _ _ _ _ _ _ Hgen). exact Hrows. }
  rewrite getConsolidatedData_fst, (Hrel _).
  assert (Hres : resolved_selection sid None (advance dt w') = ids).
  { unfold resolved_selection, stored_selection in *. cbn [advance tables]. now rewrite Hsel. }
  rewrite Hres. unfold select_and_reduce. rewrite (Hrel _), Hlive, Hsess.
  destruct (Z.ltb_spec dt sessionTTL); [| lia].
  assert (Hl : Nat.eqb (length ids) 0 = false) by (destruct ids; [contradiction | reflexivity]).
  rewrite Hl. unfold consolidated_of. rewrite length_map, Hl.
  split; [reflexivity |].
  cbn [companies consolidate]. rewrite map_map.
  apply Permutation_refl'. apply map_ext. intros tid. unfold loaded_row.
  destruct (credential_phase E tid) as [tok|msg]; [| reflexivity].
  unfold company_view. cbv zeta.
  cbn [companyData_of tenant_id tenant_name total_assets total_liabilities total_equity
       total_cash is_balanced has_data load_error].
  destruct (number_or_zero_stored (fetched_balance E tid (clock w)) totalAssets) as [-> _].
  destruct (number_or_zero_stored (fetched_balance E tid (clock w)) totalLiabilities)
    as [_ ->].
  destruct (number_or_zero_stored (fetched_balance E tid (clock w)) totalEquity) as [-> _].
  destruct (number_or_zero_stored (fetched_cash E tid) totalCash) as [-> _].
  reflexivity.
Qed.

Lemma view_of_loaded_session_witness :
  reliable env_missing_c /\
  exists r w' view,
    loadSessionData env_missing_c "s1" ["a"; "c"]%string used_world = (Ok r, w') /\
    fst (getConsolidatedData env_missing_c "s1" None (advance 60000 w'))
    = Ok (ConsolidatedOk view) /\
    Permutation
      (map (fun c => (cv_tenantName c, cv_error c)) (companies view))
      [("Company a"%string, None);
       ("Unknown Company"%string, Some "No token found for tenant c"%string)].
Proof.
  assert (Hrel : reliable env_missing_c) by (intros n; reflexivity).
  split; [exact Hrel |].
  destruct (view_of_loaded_session env_missing_c "s1" ["a"; "c"]%string used_world 60000 Hrel)
    as (r & w' & view & H & Hv & Hc); [discriminate | unfold sessionTTL; lia |].
  exists r, w', view. split; [exact H |]. split; [exact Hv |].
  apply (Permutation_map (fun c => (cv_tenantName c, cv_error c))) in Hc.
  exact Hc.
Defined.

(** X16: once [setDisplaySelection] has been accepted, with or without a
    view, the stored row has the identifiers, the view passed or
    "overview" when none was, and the time of the call; and from then on
    [getConsolidatedData] without a selection answers as it does for those
    identifiers passed explicitly, when the store serves the reads. *)
Theorem stored_selection_drives_consolidation (E : Env) (sid : string) (ids : list string)
        (view : option string) (w : World) :
  reliable E ->
  stored_selection sid (snd (setDisplaySelection E sid ids view w))
  = Some (mkSelectionRow ids match view with Some v => v | None => "overview"%string end
                         (clock w)) /\
  forall dt,
    fst (getConsolidatedData E sid None
                             (advance dt (snd (setDisplaySelection E sid ids view w))))
    = fst (getConsolidatedData E sid (Some ids) (advance dt w)).
Proof.
  intros Hrel. rewrite setDisplaySelection_run. cbv zeta. rewrite (Hrel _). cbn [snd].
  assert (Hsel : stored_selection sid
                   (after_upsert sid ids match view with Some v => v | None => "overview"%string end w)
                 = Some (mkSelectionRow ids
                           match view with Some v => v | None => "overview"%string end
                           (clock w))).
  { unfold stored_selection, after_upsert. cbn [tables user_display_selection].
    apply lookup_insert_eq. }
  split; [exact Hsel |]. intros dt.
  rewrite !getConsolidatedData_fst, (Hrel _).
  unfold resolved_selection, stored_selection in *. cbn [advance tables] in *. rewrite Hsel.
  cbn [selected_tenant_ids]. unfold select_and_reduce. rewrite !(Hrel _).
  rewrite !live_rows_of_session. reflexivity.
Qed.

Lemma stored_selection_drives_consolidation_witness :
  reliable env_missing_c /\
  stored_selection "s1" (snd (setDisplaySelection env_missing_c "s1" ["z"]%string None
                                                  used_world))
  = Some (mkSelectionRow ["z"]%string "overview" 1000).
Proof.
  assert (Hrel : reliable env_missing_c) by (intros n; reflexivity).
  split; [exact Hrel |].
  apply (stored_selection_drives_consolidation env_missing_c "s1" ["z"]%string None
                                               used_world Hrel).
Defined.
